(** * 8080gogo: a shallow embedding of the Intel 8080 emulator

    The Go program keeps one [State] (registers, stack pointer, program
    counter, 64 KiB of memory, condition bits) and mutates it in
    [Emulate], one instruction per call.  The embedding follows the
    latest revision of the program, the one with the eight-field
    condition record, [doLogicFlags], [push]/[pop] and the jumps.

    Every Go statement becomes one [let st := ... in] that rebinds the
    state, so a case of the switch reads top to bottom like its source.
    Machine integers are [Z] with the wrap-around of their Go type
    written out.  The two ways the process can end ([os.Exit] in
    [unimplemented] and in HLT) are a constructor of [Result], and every
    [fmt.Printf] of a call is one string of its output. *)

From Stdlib Require Import ZArith Lia List Bool String Ascii.
Import ListNotations.
Open Scope Z_scope.

(** ** Machine integers

    A Go [uint8], [uint16] or [uint32] is a [Z] in range; the conversion
    functions double as the wrap-around of arithmetic at that type. *)

Definition uint8 (x : Z) : Z := x mod 256.
Definition uint16 (x : Z) : Z := x mod 65536.
Definition uint32 (x : Z) : Z := x mod 4294967296.

Definition ZERO : Z := 0xFF.
Definition SIGN : Z := 0x80.
Definition CARRY : Z := 0xFF.
Definition ROUND : Z := 0xFF.

(** ** Processor state *)

Record Conditions : Type := mkConditions {
  cy : bool;
  pad1 : bool;
  p : bool;
  pad2 : bool;
  ac : bool;
  pad3 : bool;
  z : bool;
  s : bool
}.

Record State : Type := mkState {
  a : Z;
  b : Z;
  c : Z;
  d : Z;
  e : Z;
  h : Z;
  l : Z;
  sp : Z;
  pc : Z;
  memory : Z -> Z;
  cond : Conditions;
  enable : Z
}.

(** Field assignment, one function per field. *)

Definition set_cy (v : bool) (f : Conditions) : Conditions :=
  mkConditions v (pad1 f) (p f) (pad2 f) (ac f) (pad3 f) (z f) (s f).
Definition set_pad1 (v : bool) (f : Conditions) : Conditions :=
  mkConditions (cy f) v (p f) (pad2 f) (ac f) (pad3 f) (z f) (s f).
Definition set_p (v : bool) (f : Conditions) : Conditions :=
  mkConditions (cy f) (pad1 f) v (pad2 f) (ac f) (pad3 f) (z f) (s f).
Definition set_pad2 (v : bool) (f : Conditions) : Conditions :=
  mkConditions (cy f) (pad1 f) (p f) v (ac f) (pad3 f) (z f) (s f).
Definition set_ac (v : bool) (f : Conditions) : Conditions :=
  mkConditions (cy f) (pad1 f) (p f) (pad2 f) v (pad3 f) (z f) (s f).
Definition set_pad3 (v : bool) (f : Conditions) : Conditions :=
  mkConditions (cy f) (pad1 f) (p f) (pad2 f) (ac f) v (z f) (s f).
Definition set_z (v : bool) (f : Conditions) : Conditions :=
  mkConditions (cy f) (pad1 f) (p f) (pad2 f) (ac f) (pad3 f) v (s f).
Definition set_s (v : bool) (f : Conditions) : Conditions :=
  mkConditions (cy f) (pad1 f) (p f) (pad2 f) (ac f) (pad3 f) (z f) v.

Definition set_a (v : Z) (st : State) : State :=
  mkState v (b st) (c st) (d st) (e st) (h st) (l st) (sp st) (pc st)
          (memory st) (cond st) (enable st).
Definition set_b (v : Z) (st : State) : State :=
  mkState (a st) v (c st) (d st) (e st) (h st) (l st) (sp st) (pc st)
          (memory st) (cond st) (enable st).
Definition set_c (v : Z) (st : State) : State :=
  mkState (a st) (b st) v (d st) (e st) (h st) (l st) (sp st) (pc st)
          (memory st) (cond st) (enable st).
Definition set_d (v : Z) (st : State) : State :=
  mkState (a st) (b st) (c st) v (e st) (h st) (l st) (sp st) (pc st)
          (memory st) (cond st) (enable st).
Definition set_e (v : Z) (st : State) : State :=
  mkState (a st) (b st) (c st) (d st) v (h st) (l st) (sp st) (pc st)
          (memory st) (cond st) (enable st).
Definition set_h (v : Z) (st : State) : State :=
  mkState (a st) (b st) (c st) (d st) (e st) v (l st) (sp st) (pc st)
          (memory st) (cond st) (enable st).
Definition set_l (v : Z) (st : State) : State :=
  mkState (a st) (b st) (c st) (d st) (e st) (h st) v (sp st) (pc st)
          (memory st) (cond st) (enable st).
Definition set_sp (v : Z) (st : State) : State :=
  mkState (a st) (b st) (c st) (d st) (e st) (h st) (l st) v (pc st)
          (memory st) (cond st) (enable st).
Definition set_pc (v : Z) (st : State) : State :=
  mkState (a st) (b st) (c st) (d st) (e st) (h st) (l st) (sp st) v
          (memory st) (cond st) (enable st).
Definition set_memory (v : Z -> Z) (st : State) : State :=
  mkState (a st) (b st) (c st) (d st) (e st) (h st) (l st) (sp st) (pc st)
          v (cond st) (enable st).
Definition set_cond (v : Conditions) (st : State) : State :=
  mkState (a st) (b st) (c st) (d st) (e st) (h st) (l st) (sp st) (pc st)
          (memory st) v (enable st).

(** [s.cond.x = v] *)
Definition upd_cond (f : Conditions -> Conditions) (st : State) : State :=
  set_cond (f (cond st)) st.

(** [s.memory[addr] = v]; the index is a [uint16], always inside the
    array. *)
Definition store (addr v : Z) (st : State) : State :=
  set_memory (fun x => if x =? addr then v else memory st x) st.

(** ** Accessors and flag helpers *)

Definition getBC (st : State) : Z :=
  Z.lor (uint16 (Z.shiftl (b st) 8)) (c st).

Definition setBC (bc : Z) (st : State) : State :=
  let st := set_b (uint8 (Z.shiftr (uint16 (bc * 0xff00)) 8)) st in
  let st := set_c (uint8 (Z.land bc 0xff)) st in
  st.

Definition getDE (st : State) : Z :=
  Z.lor (uint16 (Z.shiftl (d st) 8)) (e st).

Definition setDE (de : Z) (st : State) : State :=
  let st := set_e (uint8 (Z.shiftr (uint16 (de * 0xff00)) 8)) st in
  let st := set_d (uint8 (Z.land de 0xff)) st in
  st.

Definition getHL (st : State) : Z :=
  Z.lor (uint16 (Z.shiftl (h st) 8)) (l st).

Definition setHL (hl : Z) (st : State) : State :=
  let st := set_l (uint8 (Z.shiftr (uint16 (hl * 0xff00)) 8)) st in
  let st := set_h (uint8 (Z.land hl 0xff)) st in
  st.

Definition getCarry (st : State) : Z :=
  if cy (cond st) then 1 else 0.

Definition setCarry (result : Z) (st : State) : State :=
  upd_cond (set_cy (negb (Z.land result 0xffff0000 =? 0))) st.

Definition getAddr (st : State) : Z :=
  Z.lor (uint16 (Z.shiftl (memory st (uint16 (pc st + 2))) 8))
        (memory st (uint16 (pc st + 1))).

(** The loop of [parity]: [n] iterations left, [answer] shifted right
    once per iteration, [cnt] the number of one bits seen. *)
Fixpoint parity_loop (n : nat) (answer cnt : Z) : Z :=
  match n with
  | O => cnt
  | S n' =>
      let cnt := if Z.land answer 0x1 >? 0 then uint8 (cnt + 1) else cnt in
      parity_loop n' (Z.shiftr answer 1) cnt
  end.

Definition parity (answer : Z) (st : State) : State :=
  let SIZE := 8 in
  let answer := Z.land answer (Z.shiftl 1 SIZE - 1) in
  let cnt := parity_loop (Z.to_nat SIZE) answer 0 in
  upd_cond (set_p (Z.land cnt 0x1 =? 0)) st.

Definition doArithFlags (answer : Z) (st : State) : State :=
  let st := upd_cond (set_z (Z.land answer ZERO =? 0)) st in
  let st := upd_cond (set_s (negb (Z.land answer SIGN =? 0))) st in
  let st := upd_cond (set_cy (answer >? CARRY)) st in
  let st := parity (uint8 answer) st in
  st.

Definition doLogicFlags (st : State) : State :=
  let st := upd_cond (set_z (a st =? 0)) st in
  let st := upd_cond (set_s (negb (Z.land (a st) (uint8 SIGN) =? 0))) st in
  let st := upd_cond (set_cy (negb (ac (cond st)))) st in
  let st := parity (a st) st in
  st.

Definition doZSPFlags (result : Z) (st : State) : State :=
  let st := upd_cond (set_z (result =? 0)) st in
  let st := upd_cond (set_s (negb (Z.land result (uint8 SIGN) =? 0))) st in
  let st := parity result st in
  st.

Definition push (high low : Z) (st : State) : State :=
  let st := store (uint16 (sp st - 1)) high st in
  let st := store (uint16 (sp st - 2)) low st in
  let st := set_sp (uint16 (sp st - 2)) st in
  st.

(** [pop] returns [(high, low)] and the state with the stack pointer
    moved. *)
Definition pop (st : State) : Z * Z * State :=
  let low := memory st (sp st) in
  let high := memory st (uint16 (sp st + 1)) in
  let st := set_sp (uint16 (sp st + 2)) st in
  (high, low, st).

(** ** Output

    Every [fmt.Printf] adds one string to the output of the call.  The
    two verbs used are [%06d] on the program counter and [%02x] on the
    opcode.  [digits_fixed base width v] writes [v] in [width] digits,
    most significant first: for a [uint16] in decimal with width 6 and a
    byte in hexadecimal with width 2 the value always fits, so this is
    the zero-padded text that Go prints. *)

Definition digit (n : Z) : ascii :=
  match String.get (Z.to_nat n) "0123456789abcdef" with
  | Some ch => ch
  | None => "?"%char
  end.

Fixpoint digits_fixed (base : Z) (width : nat) (v : Z) : string :=
  match width with
  | O => EmptyString
  | S w => String (digit ((v / base ^ Z.of_nat w) mod base)) (digits_fixed base w v)
  end.

Definition fmt06d (v : Z) : string := digits_fixed 10 6 v.
Definition fmt02x (v : Z) : string := digits_fixed 16 2 v.

Definition newline : string := String (ascii_of_nat 10) EmptyString.

(** ** Results of one call

    [Emulate] either returns to the driver loop or ends the process
    through [os.Exit]; in the second case nothing after the call runs,
    so the state is the one at the moment of the exit. *)

Inductive Result : Type :=
  | Return (st : State)
  | Exit (code : Z) (st : State).

Definition ret (st : State) : list string * Result := ([], Return st).

Definition unimplemented (st : State) : list string * Result :=
  let opcode := memory st (pc st) in
  ([("Unimplemented: 0x" ++ fmt02x opcode ++ newline)%string], Exit 1 st).

(** [reflect.ValueOf(s.cond)]: the fields of the condition record in
    declaration order. *)
Definition ValueOf (f : Conditions) : list bool :=
  [cy f; pad1 f; p f; pad2 f; ac f; pad3 f; z f; s f].

(** The loop of PUSH PSW over the fields: [psw] collects [flag] for every
    field that is set, [flag] moves one bit to the left each time. *)
Fixpoint pack_fields (v : list bool) (psw flag : Z) : Z * Z :=
  match v with
  | [] => (psw, flag)
  | field :: v' =>
      let psw := if field then Z.lor psw flag else psw in
      let flag := uint8 (Z.shiftl flag 1) in
      pack_fields v' psw flag
  end.

(** ** The instruction switch of [Emulate] *)

Definition Emulate_switch (opcode : Z) (st : State) : list string * Result :=
  match opcode with
  | 0x00 => (* NOP *)
      ret st
  | 0x01 => (* LXI B,word *)
      let st := set_pc (uint16 (pc st + 1)) st in
      let st := set_c (memory st (pc st)) st in
      let st := set_pc (uint16 (pc st + 1)) st in
      let st := set_b (memory st (pc st)) st in
      ret st
  | 0x02 => (* STAX B *)
      let st := store (getBC st) (a st) st in
      ret st
  | 0x03 => (* INX B *)
      let st := set_c (uint8 (c st + 1)) st in
      let st :=
        if c st =? 0 then
          let st := set_b (uint8 (b st + 1)) st in
          st
        else
          st
      in
      ret st
  | 0x04 => (* INR B *)
      let st := set_b (uint8 (b st + 1)) st in
      let st := doZSPFlags (b st) st in
      ret st
  | 0x05 => (* DCR B *)
      let st := set_b (uint8 (b st - 1)) st in
      let st := doZSPFlags (b st) st in
      ret st
  | 0x06 => (* MVI B, D8 *)
      let st := set_pc (uint16 (pc st + 1)) st in
      let st := set_b (memory st (pc st)) st in
      ret st
  | 0x07 => (* RLC *)
      let bit7 := Z.land (a st) 0x80 in
      let st := set_a (Z.lor (uint8 (Z.shiftl (a st) 1)) (Z.shiftr bit7 7)) st in
      let st := upd_cond (set_cy (bit7 =? 0x80)) st in
      ret st
  | 0x08 => (* Unimplemented *)
      unimplemented st
  | 0x09 => (* DAD B *)
      let result := uint32 (getHL st + getBC st) in
      let st := set_h (uint8 (Z.shiftr (uint32 (result * 0xff00)) 8)) st in
      let st := set_l (uint8 (Z.land result 0xff)) st in
      let st := setCarry result st in
      ret st
  | 0x0a => (* LDAX B *)
      let st := set_a (memory st (getBC st)) st in
      ret st
  | 0x0b => (* DCX B *)
      let st := setBC (uint16 (getBC st - 1)) st in
      ret st
  | 0x0c => (* INR C *)
      let st := set_c (uint8 (c st + 1)) st in
      let st := doZSPFlags (c st) st in
      ret st
  | 0x0d => (* DCR C *)
      let st := set_c (uint8 (c st - 1)) st in
      let st := doZSPFlags (c st) st in
      ret st
  | 0x0e => (* MVI C, D8 *)
      let st := set_pc (uint16 (pc st + 1)) st in
      let st := set_c (memory st (pc st)) st in
      ret st
  | 0x0f => (* RRC *)
      let bit0 := Z.land (a st) 0x01 in
      let st := set_a (Z.lor (Z.shiftr (a st) 1) (uint8 (Z.shiftl bit0 7))) st in
      let st := upd_cond (set_cy (bit0 =? 0x01)) st in
      ret st
  | 0x10 => (* Unimplemented *)
      unimplemented st
  | 0x11 => (* LXI D, word *)
      let st := set_pc (uint16 (pc st + 1)) st in
      let st := set_e (memory st (pc st)) st in
      let st := set_pc (uint16 (pc st + 1)) st in
      let st := set_d (memory st (pc st)) st in
      ret st
  | 0x12 => (* STAX D *)
      let st := store (getDE st) (a st) st in
      ret st
  | 0x13 => (* INX D *)
      let st := store (getDE st) (a st) st in
      ret st
  | 0x14 => (* INR D *)
      let st := set_d (uint8 (d st + 1)) st in
      let st := doZSPFlags (d st) st in
      ret st
  | 0x15 => (* DCR D *)
      let st := set_d (uint8 (d st - 1)) st in
      let st := doZSPFlags (d st) st in
      ret st
  | 0x16 => (* MVI D, D8 *)
      let st := set_pc (uint16 (pc st + 1)) st in
      let st := set_d (memory st (pc st)) st in
      ret st
  | 0x17 => (* RAL *)
      let bit7 := Z.land (a st) 0x80 in
      let st :=
        if cy (cond st) then
          let st := set_a (Z.lor (a st) 0x01) st in
          st
        else
          st
      in
      let st := upd_cond (set_cy (bit7 =? 0x80)) st in
      ret st
  | 0x18 => (* Unimplemented *)
      unimplemented st
  | 0x19 => (* DAD D *)
      let result := uint32 (getHL st + getDE st) in
      let st := set_h (uint8 (Z.shiftr (uint32 (result * 0xff00)) 8)) st in
      let st := set_l (uint8 (Z.land result 0xff)) st in
      let st := setCarry result st in
      ret st
  | 0x1a => (* LDAX D *)
      let st := set_a (memory st (getDE st)) st in
      ret st
  | 0x1b => (* DCX D *)
      let st := setDE (uint16 (getDE st - 1)) st in
      ret st
  | 0x1c => (* INR E *)
      let st := set_e (uint8 (e st + 1)) st in
      let st := doZSPFlags (e st) st in
      ret st
  | 0x1d => (* DCR E *)
      let st := set_e (uint8 (e st - 1)) st in
      let st := doZSPFlags (e st) st in
      ret st
  | 0x1e => (* MVI E,D8 *)
      let st := set_pc (uint16 (pc st + 1)) st in
      let st := set_e (memory st (pc st)) st in
      ret st
  | 0x1f => (* RAR *)
      let st := upd_cond (set_cy ((Z.land (a st) 0x01) =? 0x01)) st in
      let bit7 := Z.land (a st) 0x80 in
      let st := set_a (Z.lor (Z.shiftr (a st) 1) bit7) st in
      ret st
  | 0x20 => (* RIM *)
      unimplemented st
  | 0x21 => (* LXI H, D16 *)
      let st := set_pc (uint16 (pc st + 1)) st in
      let st := set_l (memory st (pc st)) st in
      let st := set_pc (uint16 (pc st + 1)) st in
      let st := set_h (memory st (pc st)) st in
      ret st
  | 0x22 => (* SHLD adr *)
      let adr := getAddr st in
      let st := set_pc (uint16 (pc st + 2)) st in
      let st := store adr (l st) st in
      let st := store (uint16 (adr + 1)) (h st) st in
      ret st
  | 0x23 => (* INX H *)
      let st := setHL (uint16 (getHL st + 1)) st in
      ret st
  | 0x24 => (* INR H *)
      let st := set_h (uint8 (h st + 1)) st in
      let st := doZSPFlags (h st) st in
      ret st
  | 0x25 => (* DCR H *)
      let st := set_h (uint8 (h st - 1)) st in
      let st := doZSPFlags (h st) st in
      ret st
  | 0x26 => (* MVI H,D8 *)
      let st := set_pc (uint16 (pc st + 1)) st in
      let st := set_h (memory st (pc st)) st in
      ret st
  | 0x27 => (* DAA *)
      unimplemented st
  | 0x28 => (* Unimplemented *)
      unimplemented st
  | 0x29 => (* DAD H *)
      let result := uint32 (2 * (getHL st)) in
      let st := setHL (uint16 result) st in
      let st := setCarry result st in
      ret st
  | 0x2a => (* LHLD adr *)
      let adr := getAddr st in
      let st := set_pc (uint16 (pc st + 2)) st in
      let st := set_l (memory st adr) st in
      let st := set_h (memory st (uint16 (adr + 1))) st in
      ret st
  | 0x2b => (* DCX H *)
      let st := setHL (uint16 (getHL st - 1)) st in
      ret st
  | 0x2c => (* INR L *)
      let st := set_l (uint8 (l st + 1)) st in
      let st := doZSPFlags (l st) st in
      ret st
  | 0x2d => (* DCR L *)
      let st := set_l (uint8 (l st - 1)) st in
      let st := doZSPFlags (l st) st in
      ret st
  | 0x2f => (* CMA *)
      let st := set_a (uint8 (Z.lnot (a st))) st in
      ret st
  | 0x30 => (* SIM *)
      unimplemented st
  | 0x31 => (* LXI SP,D16 *)
      let st := set_sp (getAddr st) st in
      let st := set_pc (uint16 (pc st + 2)) st in
      ret st
  | 0x32 => (* STA adr *)
      let st := store (getAddr st) (a st) st in
      let st := set_pc (uint16 (pc st + 1)) st in
      ret st
  | 0x33 => (* INX SP *)
      let st := set_sp (uint16 (sp st + 1)) st in
      ret st
  | 0x34 => (* INR M *)
      let hl := getHL st in
      let st := store hl (uint8 (memory st hl + 1)) st in
      let st := doZSPFlags (memory st hl) st in
      ret st
  | 0x35 => (* DCR M *)
      let hl := getHL st in
      let st := store hl (uint8 (memory st hl - 1)) st in
      let st := doZSPFlags (memory st hl) st in
      ret st
  | 0x36 => (* MVI M,D8 *)
      let st := set_pc (uint16 (pc st + 1)) st in
      let st := store (getHL st) (memory st (pc st)) st in
      ret st
  | 0x37 => (* STC *)
      let st := upd_cond (set_cy true) st in
      ret st
  | 0x38 => (* Unimplemented *)
      unimplemented st
  | 0x39 => (* DAD SP *)
      let result := uint32 (getHL st + sp st) in
      let st := setHL (uint16 result) st in
      let st := setCarry result st in
      ret st
  | 0x3a => (* LDA adr *)
      let st := set_a (memory st (getAddr st)) st in
      let st := set_pc (uint16 (pc st + 2)) st in
      ret st
  | 0x3b => (* DCX SP *)
      let st := set_sp (uint16 (sp st - 1)) st in
      ret st
  | 0x3c => (* INR A *)
      let st := set_a (uint8 (a st + 1)) st in
      let st := doZSPFlags (a st) st in
      ret st
  | 0x3d => (* DCR A *)
      let st := set_a (uint8 (a st - 1)) st in
      let st := doZSPFlags (a st) st in
      ret st
  | 0x3f => (* CMC *)
      let st := upd_cond (set_cy (negb (cy (cond st)))) st in
      ret st
  | 0x40 => (* MOV B,b *)
      let st := set_b (b st) st in
      ret st
  | 0x41 => (* MOV B,C *)
      let st := set_b (c st) st in
      ret st
  | 0x42 => (* MOV B,D *)
      let st := set_b (d st) st in
      ret st
  | 0x43 => (* MOV B,E *)
      let st := set_b (e st) st in
      ret st
  | 0x44 => (* MOV B,H *)
      let st := set_b (h st) st in
      ret st
  | 0x45 => (* MOV B,L *)
      let st := set_b (l st) st in
      ret st
  | 0x46 => (* MOV B,M *)
      let st := set_b (memory st (getAddr st)) st in
      ret st
  | 0x47 => (* MOV B,A *)
      let st := set_b (a st) st in
      ret st
  | 0x48 => (* MOV C,B *)
      let st := set_c (b st) st in
      ret st
  | 0x49 => (* MOV C,C *)
      let st := set_c (c st) st in
      ret st
  | 0x4a => (* MOV C,D *)
      let st := set_c (d st) st in
      ret st
  | 0x4b => (* MOV C,E *)
      let st := set_c (e st) st in
      ret st
  | 0x4c => (* MOV C,H *)
      let st := set_c (h st) st in
      ret st
  | 0x4d => (* MOV C,L *)
      let st := set_c (l st) st in
      ret st
  | 0x4e => (* MOV C,M *)
      let st := set_c (memory st (getAddr st)) st in
      ret st
  | 0x4f => (* MOV C,A *)
      let st := set_c (a st) st in
      ret st
  | 0x50 => (* MOV D,B *)
      let st := set_d (b st) st in
      ret st
  | 0x51 => (* MOV D,C *)
      let st := set_d (c st) st in
      ret st
  | 0x52 => (* MOV D,D *)
      let st := set_d (d st) st in
      ret st
  | 0x53 => (* MOV D,E *)
      let st := set_d (e st) st in
      ret st
  | 0x54 => (* MOV D,H *)
      let st := set_d (h st) st in
      ret st
  | 0x55 => (* MOV D,L *)
      let st := set_d (l st) st in
      ret st
  | 0x56 => (* MOV D,M *)
      let st := set_d (memory st (getAddr st)) st in
      ret st
  | 0x57 => (* MOV D,A *)
      let st := set_d (a st) st in
      ret st
  | 0x58 => (* MOV E,B *)
      let st := set_e (b st) st in
      ret st
  | 0x59 => (* MOV E,C *)
      let st := set_e (c st) st in
      ret st
  | 0x5a => (* MOV E,D *)
      let st := set_e (d st) st in
      ret st
  | 0x5b => (* MOV E,E *)
      let st := set_e (e st) st in
      ret st
  | 0x5c => (* MOV E,H *)
      let st := set_e (h st) st in
      ret st
  | 0x5d => (* MOV E,L *)
      let st := set_e (l st) st in
      ret st
  | 0x5e => (* MOV E,M *)
      let st := set_e (memory st (getAddr st)) st in
      ret st
  | 0x5f => (* MOV E,A *)
      let st := set_e (a st) st in
      ret st
  | 0x60 => (* MOV H,B *)
      let st := set_h (b st) st in
      ret st
  | 0x61 => (* MOV H,C *)
      let st := set_h (c st) st in
      ret st
  | 0x62 => (* MOV H,D *)
      let st := set_h (d st) st in
      ret st
  | 0x63 => (* MOV H,E *)
      let st := set_h (e st) st in
      ret st
  | 0x64 => (* MOV H,H *)
      let st := set_h (h st) st in
      ret st
  | 0x65 => (* MOV H,L *)
      let st := set_h (l st) st in
      ret st
  | 0x66 => (* MOV H,M *)
      let st := set_h (memory st (getAddr st)) st in
      ret st
  | 0x67 => (* MOV H,A *)
      let st := set_h (a st) st in
      ret st
  | 0x68 => (* MOV L,B *)
      let st := set_l (b st) st in
      ret st
  | 0x69 => (* MOV L,C *)
      let st := set_l (c st) st in
      ret st
  | 0x6a => (* MOV L,D *)
      let st := set_l (d st) st in
      ret st
  | 0x6b => (* MOV L,E *)
      let st := set_l (e st) st in
      ret st
  | 0x6c => (* MOV L,H *)
      let st := set_l (h st) st in
      ret st
  | 0x6d => (* MOV L,L *)
      let st := set_l (l st) st in
      ret st
  | 0x6e => (* MOV L,M *)
      let st := set_l (memory st (getAddr st)) st in
      ret st
  | 0x6f => (* MOV L,A *)
      let st := set_l (a st) st in
      ret st
  | 0x70 => (* MOV M,B *)
      let st := store (getAddr st) (b st) st in
      ret st
  | 0x71 => (* MOV M,C *)
      let st := store (getAddr st) (c st) st in
      ret st
  | 0x72 => (* MOV M,D *)
      let st := store (getAddr st) (d st) st in
      ret st
  | 0x73 => (* MOV M,E *)
      let st := store (getAddr st) (e st) st in
      ret st
  | 0x74 => (* MOV M,H *)
      let st := store (getAddr st) (h st) st in
      ret st
  | 0x75 => (* MOV M,L *)
      let st := store (getAddr st) (l st) st in
      ret st
  | 0x76 => (* HALT *)
      ([], Exit 0 st)
  | 0x77 => (* MOV M,A *)
      let st := store (getAddr st) (a st) st in
      ret st
  | 0x78 => (* MOV A,B *)
      let st := set_a (b st) st in
      ret st
  | 0x79 => (* MOV A,C *)
      let st := set_a (c st) st in
      ret st
  | 0x7a => (* MOV A,D *)
      let st := set_a (d st) st in
      ret st
  | 0x7b => (* MOV A,E *)
      let st := set_a (e st) st in
      ret st
  | 0x7c => (* MOV A,H *)
      let st := set_a (h st) st in
      ret st
  | 0x7d => (* MOV A,L *)
      let st := set_a (l st) st in
      ret st
  | 0x7e => (* MOV A,M *)
      let st := set_a (memory st (getAddr st)) st in
      ret st
  | 0x7f => (* MOV A,A *)
      let st := set_a (a st) st in
      ret st
  | 0x80 => (* ADD B *)
      let answer := uint16 (a st + b st) in
      let st := doArithFlags answer st in
      let st := set_a (uint8 (Z.land answer ROUND)) st in
      ret st
  | 0x81 => (* ADD C *)
      let answer := uint16 (a st + c st) in
      let st := doArithFlags answer st in
      let st := set_a (uint8 (Z.land answer ROUND)) st in
      ret st
  | 0x82 => (* ADD D *)
      let answer := uint16 (a st + d st) in
      let st := doArithFlags answer st in
      let st := set_a (uint8 (Z.land answer ROUND)) st in
      ret st
  | 0x83 => (* ADD E *)
      let answer := uint16 (a st + e st) in
      let st := doArithFlags answer st in
      let st := set_a (uint8 (Z.land answer ROUND)) st in
      ret st
  | 0x84 => (* ADD H *)
      let answer := uint16 (a st + h st) in
      let st := doArithFlags answer st in
      let st := set_a (uint8 (Z.land answer ROUND)) st in
      ret st
  | 0x85 => (* ADD L *)
      let answer := uint16 (a st + l st) in
      let st := doArithFlags answer st in
      let st := set_a (uint8 (Z.land answer ROUND)) st in
      ret st
  | 0x86 => (* ADD M *)
      let answer := uint16 (a st + memory st (getHL st)) in
      let st := doArithFlags answer st in
      let st := set_a (uint8 (Z.land answer ROUND)) st in
      ret st
  | 0x87 => (* ADD A *)
      let answer := uint16 (a st + a st) in
      let st := doArithFlags answer st in
      let st := set_a (uint8 (Z.land answer ROUND)) st in
      ret st
  | 0x88 => (* ADC B *)
      let answer := uint16 (uint16 (a st + b st) + getCarry st) in
      let st := doArithFlags answer st in
      let st := set_a (uint8 (Z.land answer ROUND)) st in
      ret st
  | 0x89 => (* ADC C *)
      let answer := uint16 (uint16 (a st + c st) + getCarry st) in
      let st := doArithFlags answer st in
      let st := set_a (uint8 (Z.land answer ROUND)) st in
      ret st
  | 0x8A => (* ADC D *)
      let answer := uint16 (uint16 (a st + d st) + getCarry st) in
      let st := doArithFlags answer st in
      let st := set_a (uint8 (Z.land answer ROUND)) st in
      ret st
  | 0x8B => (* ADC E *)
      let answer := uint16 (uint16 (a st + e st) + getCarry st) in
      let st := doArithFlags answer st in
      let st := set_a (uint8 (Z.land answer ROUND)) st in
      ret st
  | 0x8C => (* ADC H *)
      let answer := uint16 (uint16 (a st + h st) + getCarry st) in
      let st := doArithFlags answer st in
      let st := set_a (uint8 (Z.land answer ROUND)) st in
      ret st
  | 0x8D => (* ADC L *)
      let answer := uint16 (uint16 (a st + l st) + getCarry st) in
      let st := doArithFlags answer st in
      let st := set_a (uint8 (Z.land answer ROUND)) st in
      ret st
  | 0x8E => (* ADC M *)
      let answer := uint16 (uint16 (a st + memory st (getHL st)) + getCarry st) in
      let st := doArithFlags answer st in
      let st := set_a (uint8 (Z.land answer ROUND)) st in
      ret st
  | 0x8F => (* ADC A *)
      let answer := uint16 (uint16 (a st + d st) + getCarry st) in
      let st := doArithFlags answer st in
      let st := set_a (uint8 (Z.land answer ROUND)) st in
      ret st
  | 0x90 => (* SUB B *)
      let answer := uint16 (a st - b st) in
      let st := doArithFlags answer st in
      let st := set_a (uint8 (Z.land answer ROUND)) st in
      ret st
  | 0x91 => (* SUB C *)
      let answer := uint16 (a st - c st) in
      let st := doArithFlags answer st in
      let st := set_a (uint8 (Z.land answer ROUND)) st in
      ret st
  | 0x92 => (* SUB D *)
      let answer := uint16 (a st - d st) in
      let st := doArithFlags answer st in
      let st := set_a (uint8 (Z.land answer ROUND)) st in
      ret st
  | 0x93 => (* SUB E *)
      let answer := uint16 (a st - e st) in
      let st := doArithFlags answer st in
      let st := set_a (uint8 (Z.land answer ROUND)) st in
      ret st
  | 0x94 => (* SUB H *)
      let answer := uint16 (a st - h st) in
      let st := doArithFlags answer st in
      let st := set_a (uint8 (Z.land answer ROUND)) st in
      ret st
  | 0x95 => (* SUB L *)
      let answer := uint16 (a st - l st) in
      let st := doArithFlags answer st in
      let st := set_a (uint8 (Z.land answer ROUND)) st in
      ret st
  | 0x96 => (* SUB M *)
      let answer := uint16 (a st - memory st (getHL st)) in
      let st := doArithFlags answer st in
      let st := set_a (uint8 (Z.land answer ROUND)) st in
      ret st
  | 0x97 => (* SUB A *)
      let answer := uint16 (a st - a st) in
      let st := doArithFlags answer st in
      let st := set_a (uint8 (Z.land answer ROUND)) st in
      ret st
  | 0x98 => (* SBB B *)
      let answer := uint16 (uint16 (a st - b st) - getCarry st) in
      let st := doArithFlags answer st in
      let st := set_a (uint8 (Z.land answer ROUND)) st in
      ret st
  | 0x99 => (* SBB C *)
      let answer := uint16 (uint16 (a st - c st) - getCarry st) in
      let st := doArithFlags answer st in
      let st := set_a (uint8 (Z.land answer ROUND)) st in
      ret st
  | 0x9A => (* SBB D *)
      let answer := uint16 (uint16 (a st - d st) - getCarry st) in
      let st := doArithFlags answer st in
      let st := set_a (uint8 (Z.land answer ROUND)) st in
      ret st
  | 0x9B => (* SBB E *)
      let answer := uint16 (uint16 (a st - e st) - getCarry st) in
      let st := doArithFlags answer st in
      let st := set_a (uint8 (Z.land answer ROUND)) st in
      ret st
  | 0x9C => (* SBB H *)
      let answer := uint16 (uint16 (a st - h st) - getCarry st) in
      let st := doArithFlags answer st in
      let st := set_a (uint8 (Z.land answer ROUND)) st in
      ret st
  | 0x9D => (* SBB L *)
      let answer := uint16 (uint16 (a st - l st) - getCarry st) in
      let st := doArithFlags answer st in
      let st := set_a (uint8 (Z.land answer ROUND)) st in
      ret st
  | 0x9E => (* SBB M *)
      let answer := uint16 (uint16 (a st - memory st (getHL st)) - getCarry st) in
      let st := doArithFlags answer st in
      let st := set_a (uint8 (Z.land answer ROUND)) st in
      ret st
  | 0x9F => (* SBB A *)
      let answer := uint16 (uint16 (a st - d st) - getCarry st) in
      let st := doArithFlags answer st in
      let st := set_a (uint8 (Z.land answer ROUND)) st in
      ret st
  | 0xa0 => (* ANA B *)
      let st := set_a (Z.land (a st) (b st)) st in
      let st := doLogicFlags st in
      ret st
  | 0xa1 => (* ANA c *)
      let st := set_a (Z.land (a st) (c st)) st in
      let st := doLogicFlags st in
      ret st
  | 0xa2 => (* ANA D *)
      let st := set_a (Z.land (a st) (d st)) st in
      let st := doLogicFlags st in
      ret st
  | 0xa3 => (* ANA E *)
      let st := set_a (Z.land (a st) (e st)) st in
      let st := doLogicFlags st in
      ret st
  | 0xa4 => (* ANA H *)
      let st := set_a (Z.land (a st) (h st)) st in
      let st := doLogicFlags st in
      ret st
  | 0xa5 => (* ANA L *)
      let st := set_a (Z.land (a st) (l st)) st in
      let st := doLogicFlags st in
      ret st
  | 0xa6 => (* ANA M *)
      let st := set_a (Z.land (a st) (memory st (getCarry st))) st in
      let st := set_pc (uint16 (pc st + 2)) st in
      let st := doLogicFlags st in
      ret st
  | 0xa7 => (* ANA A *)
      let st := set_a (Z.land (a st) (a st)) st in
      let st := doLogicFlags st in
      ret st
  | 0xa8 => (* XRA B *)
      let st := set_a (Z.lxor (a st) (b st)) st in
      let st := doLogicFlags st in
      ret st
  | 0xa9 => (* XRA C *)
      let st := set_a (Z.lxor (a st) (c st)) st in
      let st := doLogicFlags st in
      ret st
  | 0xaa => (* XRA D *)
      let st := set_a (Z.lxor (a st) (d st)) st in
      let st := doLogicFlags st in
      ret st
  | 0xab => (* XRA E *)
      let st := set_a (Z.lxor (a st) (e st)) st in
      let st := doLogicFlags st in
      ret st
  | 0xac => (* XRA H *)
      let st := set_a (Z.lxor (a st) (h st)) st in
      let st := doLogicFlags st in
      ret st
  | 0xad => (* XRA l *)
      let st := set_a (Z.lxor (a st) (l st)) st in
      let st := doLogicFlags st in
      ret st
  | 0xae => (* XRA M *)
      let st := set_a (Z.lxor (a st) (memory st (getAddr st))) st in
      let st := set_pc (uint16 (pc st + 2)) st in
      let st := doLogicFlags st in
      ret st
  | 0xaf => (* XRA A *)
      let st := set_a (Z.lxor (a st) (a st)) st in
      let st := doLogicFlags st in
      ret st
  | 0xb0 => (* ORA B *)
      let st := set_a (Z.lor (a st) (b st)) st in
      let st := doLogicFlags st in
      ret st
  | 0xb1 => (* ORA C *)
      let st := set_a (Z.lor (a st) (c st)) st in
      let st := doLogicFlags st in
      ret st
  | 0xb2 => (* ORA D *)
      let st := set_a (Z.lor (a st) (d st)) st in
      let st := doLogicFlags st in
      ret st
  | 0xb3 => (* ORA E *)
      let st := set_a (Z.lor (a st) (e st)) st in
      let st := doLogicFlags st in
      ret st
  | 0xb4 => (* ORA H *)
      let st := set_a (Z.lor (a st) (h st)) st in
      let st := doLogicFlags st in
      ret st
  | 0xb5 => (* ORA L *)
      let st := set_a (Z.lor (a st) (l st)) st in
      let st := doLogicFlags st in
      ret st
  | 0xb6 => (* ORA M *)
      let st := set_a (Z.lor (a st) (memory st (getAddr st))) st in
      let st := set_pc (uint16 (pc st + 2)) st in
      let st := doLogicFlags st in
      ret st
  | 0xb7 => (* ORA a *)
      let st := set_a (Z.lor (a st) (a st)) st in
      let st := doLogicFlags st in
      ret st
  | 0xb8 => (* CMP B *)
      let st := doArithFlags (uint16 (a st - b st)) st in
      ret st
  | 0xb9 => (* CMP C *)
      let st := doArithFlags (uint16 (a st - c st)) st in
      ret st
  | 0xba => (* CMP D *)
      let st := doArithFlags (uint16 (a st - d st)) st in
      ret st
  | 0xbb => (* CMP E *)
      let st := doArithFlags (uint16 (a st - e st)) st in
      ret st
  | 0xbc => (* CMP H *)
      let st := doArithFlags (uint16 (a st - h st)) st in
      ret st
  | 0xbd => (* CMP L *)
      let st := doArithFlags (uint16 (a st - l st)) st in
      ret st
  | 0xbe => (* CMP M *)
      let st := doArithFlags (uint16 (a st - memory st (getAddr st))) st in
      let st := set_pc (uint16 (pc st + 2)) st in
      ret st
  | 0xbf => (* CMP A *)
      let st := doArithFlags (uint16 (a st - a st)) st in
      ret st
  | 0xc1 => (* POP B *)
      let '(high, low, st) := pop st in
      let st := set_b high st in
      let st := set_c low st in
      ret st
  | 0xc2 => (* JNZ adr *)
      let st :=
        if negb (z (cond st)) then
          let st := set_pc (getAddr st) st in
          st
        else
          let st := set_pc (uint16 (pc st + 2)) st in
          st
      in
      ret st
  | 0xc3 => (* JMP adr *)
      let st := set_pc (getAddr st) st in
      ret st
  | 0xc5 => (* PUSH B *)
      let st := push (b st) (c st) st in
      ret st
  | 0xc6 =>
      let st := set_pc (uint16 (pc st + 1)) st in
      let answer := uint16 (a st + memory st (pc st)) in
      let st := doArithFlags answer st in
      let st := set_a (uint8 (Z.land answer ROUND)) st in
      ret st
  | 0xca => (* JZ adr *)
      let st :=
        if z (cond st) then
          let st := set_pc (getAddr st) st in
          st
        else
          let st := set_pc (uint16 (pc st + 2)) st in
          st
      in
      ret st
  | 0xd1 => (* POP D *)
      let '(high, low, st) := pop st in
      let st := set_d high st in
      let st := set_e low st in
      ret st
  | 0xd2 => (* JNC adr *)
      let st :=
        if negb (cy (cond st)) then
          let st := set_pc (getAddr st) st in
          st
        else
          let st := set_pc (uint16 (pc st + 2)) st in
          st
      in
      ret st
  | 0xd5 => (* PUSH D *)
      let st := push (d st) (e st) st in
      ret st
  | 0xda => (* JC adr *)
      let st :=
        if cy (cond st) then
          let st := set_pc (getAddr st) st in
          st
        else
          let st := set_pc (uint16 (pc st + 2)) st in
          st
      in
      ret st
  | 0xe1 => (* POP H *)
      let '(high, low, st) := pop st in
      let st := set_h high st in
      let st := set_l low st in
      ret st
  | 0xe2 => (* JPO adr *)
      let st :=
        if negb (p (cond st)) then
          let st := set_pc (getAddr st) st in
          st
        else
          let st := set_pc (uint16 (pc st + 1)) st in
          st
      in
      ret st
  | 0xe5 => (* PUSH H *)
      let st := push (h st) (l st) st in
      ret st
  | 0xea => (* JPE adr *)
      let st :=
        if p (cond st) then
          let st := set_pc (getAddr st) st in
          st
        else
          let st := set_pc (uint16 (pc st + 2)) st in
          st
      in
      ret st
  | 0xf1 => (* POP PWS *)
      let '(high, low, st) := pop st in
      let st := set_a high st in
      let st := upd_cond (set_cy ((Z.land low 0x01) =? 0x01)) st in
      let st := upd_cond (set_pad1 ((Z.land low 0x02) =? 0x02)) st in
      let st := upd_cond (set_p ((Z.land low 0x04) =? 0x04)) st in
      let st := upd_cond (set_pad2 ((Z.land low 0x08) =? 0x08)) st in
      let st := upd_cond (set_ac ((Z.land low 0x10) =? 0x10)) st in
      let st := upd_cond (set_pad3 ((Z.land low 0x20) =? 0x20)) st in
      let st := upd_cond (set_z ((Z.land low 0x40) =? 0x40)) st in
      let st := upd_cond (set_s ((Z.land low 0x80) =? 0x80)) st in
      ret st
  | 0xf2 => (* JP adr *)
      let st :=
        if negb (s (cond st)) then
          let st := set_pc (getAddr st) st in
          st
        else
          let st := set_pc (uint16 (pc st + 2)) st in
          st
      in
      ret st
  | 0xf5 => (* PUSH PSW *)
      let psw := 0 in
      let flag := 0x01 in
      let v := ValueOf (cond st) in
      let '(psw, flag) := pack_fields v psw flag in
      let st := push (a st) psw st in
      ret st
  | 0xfa => (* JM adr *)
      let st :=
        if s (cond st) then
          let st := set_pc (getAddr st) st in
          st
        else
          let st := set_pc (uint16 (pc st + 2)) st in
          st
      in
      ret st
  | _ =>
      unimplemented st
  end.

(** [Emulate]: fetch, trace line, switch, then the common [s.pc += 1]
    when the switch came back. *)
Definition Emulate (st : State) : list string * Result :=
  let opcode := memory st (pc st) in
  let line := (fmt06d (pc st) ++ ": 0x" ++ fmt02x opcode ++ newline)%string in
  match Emulate_switch opcode st with
  | (out, Return st) =>
      let st := set_pc (uint16 (pc st + 1)) st in
      (line :: out, Return st)
  | (out, Exit code st) => (line :: out, Exit code st)
  end.

(** ** Start-up and the driver loop of [main] *)

(** [new(State)]: every field zero. *)
Definition new_State : State :=
  mkState 0 0 0 0 0 0 0 0 0 (fun _ => 0)
          (mkConditions false false false false false false false false) 0.

(** [copy(state.memory[:], d)]: the first [min(len(d), 0x10000)] bytes of
    the image land at addresses 0, 1, ...; the rest of the array is left
    as it was. *)
Definition copy_image (image : list Z) (st : State) : State :=
  let n := Z.min (Z.of_nat (List.length image)) 0x10000 in
  set_memory (fun x => if (0 <=? x) && (x <? n)
                         then nth (Z.to_nat x) image 0
                         else memory st x) st.

(** The two statements of [main] that build the state.  [main] reaches
    them only after it has checked that the image is not empty: on an
    empty image it prints "Zero size ROM. Abort" and exits with status 1
    before any state exists. *)
Definition startup (image : list Z) : State :=
  copy_image image new_State.

(** [for { state.Emulate() }], cut after [fuel] calls. *)
Fixpoint run (fuel : nat) (st : State) : list string * Result :=
  match fuel with
  | O => ([], Return st)
  | S fuel' =>
      match Emulate st with
      | (out, Return st') =>
          let (out', r) := run fuel' st' in ((out ++ out')%list, r)
      | (out, Exit code st') => (out, Exit code st')
      end
  end.

(** The states the loop can be in: the start-up state of some image and
    every state a returning [Emulate] leaves behind. *)
Inductive Reachable (image : list Z) : State -> Prop :=
  | Reachable_startup : Reachable image (startup image)
  | Reachable_step : forall st out st',
      Reachable image st ->
      Emulate st = (out, Return st') ->
      Reachable image st'.

(** ** Well-formed states

    The Go types bound every field: registers and memory cells are bytes,
    the stack pointer and the program counter are 16-bit words. *)

Definition is_byte (x : Z) : Prop := 0 <= x < 256.
Definition is_word (x : Z) : Prop := 0 <= x < 65536.

Record wf (st : State) : Prop := mk_wf {
  wf_a : is_byte (a st);
  wf_b : is_byte (b st);
  wf_c : is_byte (c st);
  wf_d : is_byte (d st);
  wf_e : is_byte (e st);
  wf_h : is_byte (h st);
  wf_l : is_byte (l st);
  wf_sp : is_word (sp st);
  wf_pc : is_word (pc st);
  wf_memory : forall x, is_byte (memory st x);
  wf_enable : is_byte (enable st)
}.


(** ** Instruction encodings named in the statements

    The case comments of the switch name each opcode; the tables below
    collect the ones the properties speak about. *)

(** The opcodes whose case does something other than call
    [unimplemented]. *)
Definition implemented : list Z :=
  [0x00; 0x01; 0x02; 0x03; 0x04; 0x05; 0x06; 0x07; 0x09; 0x0a; 0x0b; 0x0c;
   0x0d; 0x0e; 0x0f; 0x11; 0x12; 0x13; 0x14; 0x15; 0x16; 0x17; 0x19; 0x1a;
   0x1b; 0x1c; 0x1d; 0x1e; 0x1f; 0x21; 0x22; 0x23; 0x24; 0x25; 0x26; 0x29;
   0x2a; 0x2b; 0x2c; 0x2d; 0x2f; 0x31; 0x32; 0x33; 0x34; 0x35; 0x36; 0x37;
   0x39; 0x3a; 0x3b; 0x3c; 0x3d; 0x3f; 0x40; 0x41; 0x42; 0x43; 0x44; 0x45;
   0x46; 0x47; 0x48; 0x49; 0x4a; 0x4b; 0x4c; 0x4d; 0x4e; 0x4f; 0x50; 0x51;
   0x52; 0x53; 0x54; 0x55; 0x56; 0x57; 0x58; 0x59; 0x5a; 0x5b; 0x5c; 0x5d;
   0x5e; 0x5f; 0x60; 0x61; 0x62; 0x63; 0x64; 0x65; 0x66; 0x67; 0x68; 0x69;
   0x6a; 0x6b; 0x6c; 0x6d; 0x6e; 0x6f; 0x70; 0x71; 0x72; 0x73; 0x74; 0x75;
   0x76; 0x77; 0x78; 0x79; 0x7a; 0x7b; 0x7c; 0x7d; 0x7e; 0x7f; 0x80; 0x81;
   0x82; 0x83; 0x84; 0x85; 0x86; 0x87; 0x88; 0x89; 0x8A; 0x8B; 0x8C; 0x8D;
   0x8E; 0x8F; 0x90; 0x91; 0x92; 0x93; 0x94; 0x95; 0x96; 0x97; 0x98; 0x99;
   0x9A; 0x9B; 0x9C; 0x9D; 0x9E; 0x9F; 0xa0; 0xa1; 0xa2; 0xa3; 0xa4; 0xa5;
   0xa6; 0xa7; 0xa8; 0xa9; 0xaa; 0xab; 0xac; 0xad; 0xae; 0xaf; 0xb0; 0xb1;
   0xb2; 0xb3; 0xb4; 0xb5; 0xb6; 0xb7; 0xb8; 0xb9; 0xba; 0xbb; 0xbc; 0xbd;
   0xbe; 0xbf; 0xc1; 0xc2; 0xc3; 0xc5; 0xc6; 0xca; 0xd1; 0xd2; 0xd5; 0xda;
   0xe1; 0xe2; 0xe5; 0xea; 0xf1; 0xf2; 0xf5; 0xfa].

Definition has_semantics (opcode : Z) : bool :=
  existsb (Z.eqb opcode) implemented.

(** The seven 8-bit registers with their 3-bit code; code 6 is the
    memory operand M. *)
Inductive Reg : Type := RegB | RegC | RegD | RegE | RegH | RegL | RegA.

Definition reg_code (r : Reg) : Z :=
  match r with
  | RegB => 0 | RegC => 1 | RegD => 2 | RegE => 3
  | RegH => 4 | RegL => 5 | RegA => 7
  end.

Definition get_reg (r : Reg) (st : State) : Z :=
  match r with
  | RegB => b st | RegC => c st | RegD => d st | RegE => e st
  | RegH => h st | RegL => l st | RegA => a st
  end.

Inductive Operand : Type :=
  | OnReg (r : Reg)
  | OnM.

Definition operand_code (o : Operand) : Z :=
  match o with
  | OnReg r => reg_code r
  | OnM => 6
  end.

(** MOV r,M is [0x46 + 8 * code r], MOV M,r is [0x70 + code r]. *)
Definition MOV_from_M (r : Reg) : Z := 0x46 + 8 * reg_code r.
Definition MOV_to_M (r : Reg) : Z := 0x70 + reg_code r.

(** ADD r is [0x80 + code r], CMP r is [0xb8 + code r]. *)
Definition ADD_opcode (o : Operand) : Z := 0x80 + operand_code o.
Definition CMP_opcode (o : Operand) : Z := 0xb8 + operand_code o.

(** The logic operations: ANA at 0xa0, XRA at 0xa8, ORA at 0xb0, each
    followed by the operand code; the immediate forms ANI, XRI, ORI are
    0xe6, 0xee, 0xf6. *)
Inductive LogicOp : Type := ANA | XRA | ORA.

Definition logic_opcode (op : LogicOp) (o : Operand) : Z :=
  match op with
  | ANA => 0xa0 + operand_code o
  | XRA => 0xa8 + operand_code o
  | ORA => 0xb0 + operand_code o
  end.

Definition logic_immediate_opcode (op : LogicOp) : Z :=
  match op with
  | ANA => 0xe6
  | XRA => 0xee
  | ORA => 0xf6
  end.

(** The jumps and the condition each one tests. *)
Inductive Jump : Type := JMP | JNZ | JZ | JNC | JC | JPO | JPE | JP | JM.

Definition jump_opcode (j : Jump) : Z :=
  match j with
  | JMP => 0xc3 | JNZ => 0xc2 | JZ => 0xca | JNC => 0xd2 | JC => 0xda
  | JPO => 0xe2 | JPE => 0xea | JP => 0xf2 | JM => 0xfa
  end.

Definition jump_taken (j : Jump) (f : Conditions) : bool :=
  match j with
  | JMP => true
  | JNZ => negb (z f) | JZ => z f
  | JNC => negb (cy f) | JC => cy f
  | JPO => negb (p f) | JPE => p f
  | JP => negb (s f) | JM => s f
  end.

(** The register pairs of PUSH and POP. *)
Inductive RegPair : Type := PairB | PairD | PairH.

Definition PUSH_opcode (rp : RegPair) : Z :=
  match rp with PairB => 0xc5 | PairD => 0xd5 | PairH => 0xe5 end.

Definition POP_opcode (rp : RegPair) : Z :=
  match rp with PairB => 0xc1 | PairD => 0xd1 | PairH => 0xe1 end.

Definition getPair (rp : RegPair) (st : State) : Z :=
  match rp with PairB => getBC st | PairD => getDE st | PairH => getHL st end.

Definition pair_high (rp : RegPair) (st : State) : Z :=
  match rp with PairB => b st | PairD => d st | PairH => h st end.

Definition pair_low (rp : RegPair) (st : State) : Z :=
  match rp with PairB => c st | PairD => e st | PairH => l st end.

(** The state a call leaves, whichever way it ends. *)
Definition state_of (r : Result) : State :=
  match r with
  | Return st => st
  | Exit _ st => st
  end.

(** The trace line [Emulate] prints before the switch. *)
Definition trace_line (st : State) : string :=
  (fmt06d (pc st) ++ ": 0x" ++ fmt02x (memory st (pc st)) ++ newline)%string.

(** The 16-bit operand of a 3-byte instruction: low byte first. *)
Definition address_operand (st : State) : Z :=
  memory st (uint16 (pc st + 1)) + 256 * memory st (uint16 (pc st + 2)).

(** The number of one bits among the eight low bits of [x]. *)
Definition ones_count (x : Z) : nat :=
  List.length (filter (Z.testbit x) [0; 1; 2; 3; 4; 5; 6; 7]).

(** Reading a printed number back: the value of a digit character and of
    a string of digits in a base. *)
Definition digit_value (ch : ascii) : Z :=
  match index 0 (String ch EmptyString) "0123456789abcdef" with
  | Some i => Z.of_nat i
  | None => -1
  end.

Fixpoint read_digits (base : Z) (text : string) (acc : Z) : Z :=
  match text with
  | EmptyString => acc
  | String ch rest => read_digits base rest (acc * base + digit_value ch)
  end.

(** The decoding POP PSW applies to the flag byte. *)
Definition unpack_fields (low : Z) : Conditions :=
  mkConditions (Z.land low 0x01 =? 0x01) (Z.land low 0x02 =? 0x02)
               (Z.land low 0x04 =? 0x04) (Z.land low 0x08 =? 0x08)
               (Z.land low 0x10 =? 0x10) (Z.land low 0x20 =? 0x20)
               (Z.land low 0x40 =? 0x40) (Z.land low 0x80 =? 0x80).

(** ** More instruction tables *)

(** The operand byte of ADD, ADC, SUB and SBB on B, C, D, E, H, L and M:
    the register, or the cell H/L addresses. *)
Definition ALU_operand (o : Operand) (st : State) : Z :=
  match o with
  | OnReg r => get_reg r st
  | OnM => memory st (getHL st)
  end.

Definition ADC_opcode (o : Operand) : Z := 0x88 + operand_code o.
Definition SUB_opcode (o : Operand) : Z := 0x90 + operand_code o.
Definition SBB_opcode (o : Operand) : Z := 0x98 + operand_code o.

(** INR r is [0x04 + 8 * code r], DCR r is [0x05 + 8 * code r], MVI r is
    [0x06 + 8 * code r]. *)
Definition INR_opcode (r : Reg) : Z := 0x04 + 8 * reg_code r.
Definition DCR_opcode (r : Reg) : Z := 0x05 + 8 * reg_code r.
Definition MVI_opcode (r : Reg) : Z := 0x06 + 8 * reg_code r.

Definition set_reg (r : Reg) (v : Z) (st : State) : State :=
  match r with
  | RegB => set_b v st | RegC => set_c v st | RegD => set_d v st
  | RegE => set_e v st | RegH => set_h v st | RegL => set_l v st
  | RegA => set_a v st
  end.

(** The 16-bit operands of LXI and DAD: a register pair or the stack
    pointer. *)
Inductive Wide : Type :=
  | WPair (rp : RegPair)
  | WSP.

Definition wide_code (w : Wide) : Z :=
  match w with
  | WPair PairB => 0
  | WPair PairD => 1
  | WPair PairH => 2
  | WSP => 3
  end.

Definition wide_value (w : Wide) (st : State) : Z :=
  match w with
  | WPair rp => getPair rp st
  | WSP => sp st
  end.

Definition LXI_opcode (w : Wide) : Z := 0x01 + 16 * wide_code w.
Definition DAD_opcode (w : Wide) : Z := 0x09 + 16 * wide_code w.

(** The operation each logic case applies to the accumulator and the
    operand. *)
Definition logic_result (op : LogicOp) (x y : Z) : Z :=
  match op with
  | ANA => Z.land x y
  | XRA => Z.lxor x y
  | ORA => Z.lor x y
  end.

(** The opcodes whose case assigns to a memory cell: STAX B, STAX D and
    the case labelled INX D, SHLD, STA, INR M, DCR M, MVI M, MOV M,r and
    the four PUSH. *)
Definition writes_memory : list Z :=
  [0x02; 0x12; 0x13; 0x22; 0x32; 0x34; 0x35; 0x36;
   0x70; 0x71; 0x72; 0x73; 0x74; 0x75; 0x77;
   0xc5; 0xd5; 0xe5; 0xf5].

(** The opcodes whose case assigns to the stack pointer: LXI SP, INX SP,
    DCX SP, the four POP and the four PUSH. *)
Definition writes_sp : list Z :=
  [0x31; 0x33; 0x3b; 0xc1; 0xd1; 0xe1; 0xf1; 0xc5; 0xd5; 0xe5; 0xf5].

Definition listed (opcode : Z) (table : list Z) : bool :=
  existsb (Z.eqb opcode) table.

(** The state an arithmetic case leaves: flags from the 16-bit result,
    its low byte in the accumulator, the program counter one further. *)
Definition arith_done (answer : Z) (st : State) : State :=
  set_pc (uint16 (pc st + 1))
    (set_a (uint8 (Z.land answer ROUND)) (doArithFlags answer st)).

(** ** The first revision of the engine (8080gogo.go)

    The same state layout, with the condition bits in another order and
    one padding byte; [doArithFlags] here also writes the accumulator.
    The switch knows NOP, LXI B, three MOV, HLT, the ADD, ADC, SUB and SBB
    rows, ADI and three jumps. *)

Module Rev0.

Record Conditions : Type := mkConditions {
  z : bool;
  s : bool;
  p : bool;
  cy : bool;
  ac : bool;
  pad : Z
}.

Record State : Type := mkState {
  a : Z;
  b : Z;
  c : Z;
  d : Z;
  e : Z;
  h : Z;
  l : Z;
  sp : Z;
  pc : Z;
  memory : Z -> Z;
  cond : Conditions;
  enable : Z
}.

Definition set_z (v : bool) (f : Conditions) : Conditions :=
  mkConditions v (s f) (p f) (cy f) (ac f) (pad f).
Definition set_s (v : bool) (f : Conditions) : Conditions :=
  mkConditions (z f) v (p f) (cy f) (ac f) (pad f).
Definition set_p (v : bool) (f : Conditions) : Conditions :=
  mkConditions (z f) (s f) v (cy f) (ac f) (pad f).
Definition set_cy (v : bool) (f : Conditions) : Conditions :=
  mkConditions (z f) (s f) (p f) v (ac f) (pad f).
Definition set_ac (v : bool) (f : Conditions) : Conditions :=
  mkConditions (z f) (s f) (p f) (cy f) v (pad f).
Definition set_pad (v : Z) (f : Conditions) : Conditions :=
  mkConditions (z f) (s f) (p f) (cy f) (ac f) v.

Definition set_a (v : Z) (st : State) : State :=
  mkState v (b st) (c st) (d st) (e st) (h st) (l st) (sp st) (pc st) (memory st) (cond st) (enable st).
Definition set_b (v : Z) (st : State) : State :=
  mkState (a st) v (c st) (d st) (e st) (h st) (l st) (sp st) (pc st) (memory st) (cond st) (enable st).
Definition set_c (v : Z) (st : State) : State :=
  mkState (a st) (b st) v (d st) (e st) (h st) (l st) (sp st) (pc st) (memory st) (cond st) (enable st).
Definition set_d (v : Z) (st : State) : State :=
  mkState (a st) (b st) (c st) v (e st) (h st) (l st) (sp st) (pc st) (memory st) (cond st) (enable st).
Definition set_e (v : Z) (st : State) : State :=
  mkState (a st) (b st) (c st) (d st) v (h st) (l st) (sp st) (pc st) (memory st) (cond st) (enable st).
Definition set_h (v : Z) (st : State) : State :=
  mkState (a st) (b st) (c st) (d st) (e st) v (l st) (sp st) (pc st) (memory st) (cond st) (enable st).
Definition set_l (v : Z) (st : State) : State :=
  mkState (a st) (b st) (c st) (d st) (e st) (h st) v (sp st) (pc st) (memory st) (cond st) (enable st).
Definition set_sp (v : Z) (st : State) : State :=
  mkState (a st) (b st) (c st) (d st) (e st) (h st) (l st) v (pc st) (memory st) (cond st) (enable st).
Definition set_pc (v : Z) (st : State) : State :=
  mkState (a st) (b st) (c st) (d st) (e st) (h st) (l st) (sp st) v (memory st) (cond st) (enable st).
Definition set_memory (v : Z -> Z) (st : State) : State :=
  mkState (a st) (b st) (c st) (d st) (e st) (h st) (l st) (sp st) (pc st) v (cond st) (enable st).
Definition set_cond (v : Conditions) (st : State) : State :=
  mkState (a st) (b st) (c st) (d st) (e st) (h st) (l st) (sp st) (pc st) (memory st) v (enable st).
Definition set_enable (v : Z) (st : State) : State :=
  mkState (a st) (b st) (c st) (d st) (e st) (h st) (l st) (sp st) (pc st) (memory st) (cond st) v.

Definition upd_cond (f : Conditions -> Conditions) (st : State) : State :=
  set_cond (f (cond st)) st.

Definition getHL (st : State) : Z :=
  Z.lor (uint16 (Z.shiftl (h st) 8)) (l st).

Definition getCarry (st : State) : Z :=
  if cy (cond st) then 1 else 0.

Definition getAddr (st : State) : Z :=
  Z.lor (uint16 (Z.shiftl (memory st (uint16 (pc st + 2))) 8))
        (memory st (uint16 (pc st + 1))).

Inductive Result : Type :=
  | Return (st : State)
  | Exit (code : Z) (st : State).

Definition ret (st : State) : list string * Result := ([], Return st).

Definition unimplemented (st : State) : list string * Result :=
  let opcode := memory st (pc st) in
  ([("Unimplemented: 0x" ++ fmt02x opcode ++ newline)%string], Exit 1 st).

Definition parity (answer : Z) (st : State) : State :=
  let SIZE := 8 in
  let answer := Z.land answer (Z.shiftl 1 SIZE - 1) in
  let cnt := parity_loop (Z.to_nat SIZE) answer 0 in
  upd_cond (set_p (Z.land cnt 0x1 =? 0)) st.

Definition doArithFlags (answer : Z) (st : State) : State :=
  let st := upd_cond (set_z (Z.land answer ZERO =? 0)) st in
  let st := upd_cond (set_s (negb (Z.land answer SIGN =? 0))) st in
  let st := upd_cond (set_cy (answer >? CARRY)) st in
  let st := parity (uint8 answer) st in
  let st := set_a (uint8 (Z.land answer ROUND)) st in
  st.

Definition Emulate_switch (opcode : Z) (st : State) : list string * Result :=
  match opcode with
  | 0x00 => (* NOP *)
      ret st
  | 0x01 => (* LXI B,word *)
      let st := set_pc (uint16 (pc st + 1)) st in
      let st := set_c (memory st (pc st)) st in
      let st := set_pc (uint16 (pc st + 1)) st in
      let st := set_b (memory st (pc st)) st in
      ret st
  | 0x41 => (* MOV B,C *)
      let st := set_b (c st) st in
      ret st
  | 0x42 => (* MOV B,D *)
      let st := set_b (d st) st in
      ret st
  | 0x43 => (* MOV B,E *)
      let st := set_b (e st) st in
      ret st
  | 0x76 => (* HALT *)
      ([], Exit 0 st)
  | 0x80 => (* ADD B *)
      let answer := uint16 (a st + b st) in
      let st := doArithFlags answer st in
      ret st
  | 0x81 => (* ADD C *)
      let answer := uint16 (a st + c st) in
      let st := doArithFlags answer st in
      ret st
  | 0x82 => (* ADD D *)
      let answer := uint16 (a st + d st) in
      let st := doArithFlags answer st in
      ret st
  | 0x83 => (* ADD E *)
      let answer := uint16 (a st + e st) in
      let st := doArithFlags answer st in
      ret st
  | 0x84 => (* ADD H *)
      let answer := uint16 (a st + h st) in
      let st := doArithFlags answer st in
      ret st
  | 0x85 => (* ADD L *)
      let answer := uint16 (a st + l st) in
      let st := doArithFlags answer st in
      ret st
  | 0x86 => (* ADD M *)
      let answer := uint16 (a st + memory st (getHL st)) in
      let st := doArithFlags answer st in
      ret st
  | 0x87 => (* ADD A *)
      let answer := uint16 (a st + a st) in
      let st := doArithFlags answer st in
      ret st
  | 0x88 => (* ADC B *)
      let answer := uint16 (uint16 (a st + b st) + getCarry st) in
      let st := doArithFlags answer st in
      ret st
  | 0x89 => (* ADC C *)
      let answer := uint16 (uint16 (a st + c st) + getCarry st) in
      let st := doArithFlags answer st in
      ret st
  | 0x8A => (* ADC D *)
      let answer := uint16 (uint16 (a st + d st) + getCarry st) in
      let st := doArithFlags answer st in
      ret st
  | 0x8B => (* ADC E *)
      let answer := uint16 (uint16 (a st + e st) + getCarry st) in
      let st := doArithFlags answer st in
      ret st
  | 0x8C => (* ADC H *)
      let answer := uint16 (uint16 (a st + h st) + getCarry st) in
      let st := doArithFlags answer st in
      ret st
  | 0x8D => (* ADC L *)
      let answer := uint16 (uint16 (a st + l st) + getCarry st) in
      let st := doArithFlags answer st in
      ret st
  | 0x8E => (* ADC M *)
      let answer := uint16 (uint16 (a st + memory st (getHL st)) + getCarry st) in
      let st := doArithFlags answer st in
      ret st
  | 0x8F => (* ADC A *)
      let answer := uint16 (uint16 (a st + d st) + getCarry st) in
      let st := doArithFlags answer st in
      ret st
  | 0x90 => (* SUB B *)
      let answer := uint16 (a st - b st) in
      let st := doArithFlags answer st in
      ret st
  | 0x91 => (* SUB C *)
      let answer := uint16 (a st - c st) in
      let st := doArithFlags answer st in
      ret st
  | 0x92 => (* SUB D *)
      let answer := uint16 (a st - d st) in
      let st := doArithFlags answer st in
      ret st
  | 0x93 => (* SUB E *)
      let answer := uint16 (a st - e st) in
      let st := doArithFlags answer st in
      ret st
  | 0x94 => (* SUB H *)
      let answer := uint16 (a st - h st) in
      let st := doArithFlags answer st in
      ret st
  | 0x95 => (* SUB L *)
      let answer := uint16 (a st - l st) in
      let st := doArithFlags answer st in
      ret st
  | 0x96 => (* SUB M *)
      let answer := uint16 (a st - memory st (getHL st)) in
      let st := doArithFlags answer st in
      ret st
  | 0x97 => (* SUB A *)
      let answer := uint16 (a st - a st) in
      let st := doArithFlags answer st in
      ret st
  | 0x98 => (* SBB B *)
      let answer := uint16 (uint16 (a st - b st) - getCarry st) in
      let st := doArithFlags answer st in
      ret st
  | 0x99 => (* SBB C *)
      let answer := uint16 (uint16 (a st - c st) - getCarry st) in
      let st := doArithFlags answer st in
      ret st
  | 0x9A => (* SBB D *)
      let answer := uint16 (uint16 (a st - d st) - getCarry st) in
      let st := doArithFlags answer st in
      ret st
  | 0x9B => (* SBB E *)
      let answer := uint16 (uint16 (a st - e st) - getCarry st) in
      let st := doArithFlags answer st in
      ret st
  | 0x9C => (* SBB H *)
      let answer := uint16 (uint16 (a st - h st) - getCarry st) in
      let st := doArithFlags answer st in
      ret st
  | 0x9D => (* SBB L *)
      let answer := uint16 (uint16 (a st - l st) - getCarry st) in
      let st := doArithFlags answer st in
      ret st
  | 0x9E => (* SBB M *)
      let answer := uint16 (uint16 (a st - memory st (getHL st)) - getCarry st) in
      let st := doArithFlags answer st in
      ret st
  | 0x9F => (* SBB A *)
      let answer := uint16 (uint16 (a st - d st) - getCarry st) in
      let st := doArithFlags answer st in
      ret st
  | 0xc2 => (* JMZ adr *)
      let st :=
        if negb (z (cond st)) then
          let st := set_pc (getAddr st) st in
          st
        else
          let st := set_pc (uint16 (pc st + 2)) st in
          st
      in
      ret st
  | 0xc3 => (* JMP adr *)
      let st := set_pc (getAddr st) st in
      ret st
  | 0xc6 =>
      let st := set_pc (uint16 (pc st + 1)) st in
      let answer := uint16 (a st + memory st (pc st)) in
      let st := doArithFlags answer st in
      ret st
  | 0xca => (* JZ adr *)
      let st :=
        if z (cond st) then
          let st := set_pc (getAddr st) st in
          st
        else
          let st := set_pc (uint16 (pc st + 2)) st in
          st
      in
      ret st
  | _ =>
      unimplemented st
  end.

Definition Emulate (st : State) : list string * Result :=
  let opcode := memory st (pc st) in
  let line := (fmt06d (pc st) ++ ": 0x" ++ fmt02x opcode ++ newline)%string in
  match Emulate_switch opcode st with
  | (out, Return st) =>
      let st := set_pc (uint16 (pc st + 1)) st in
      (line :: out, Return st)
  | (out, Exit code st) => (line :: out, Exit code st)
  end.

Definition new_State : State :=
  mkState 0 0 0 0 0 0 0 0 0 (fun _ => 0)
          (mkConditions false false false false false 0) 0.

Definition copy_image (image : list Z) (st : State) : State :=
  let n := Z.min (Z.of_nat (List.length image)) 0x10000 in
  set_memory (fun x => if (0 <=? x) && (x <? n)
                         then nth (Z.to_nat x) image 0
                         else memory st x) st.

Definition startup (image : list Z) : State :=
  copy_image image new_State.

(** The opcodes with a case in this revision. *)
Definition implemented : list Z :=
  [0x00; 0x01; 0x41; 0x42; 0x43; 0x76; 0x80; 0x81; 0x82; 0x83; 0x84; 0x85;
   0x86; 0x87; 0x88; 0x89; 0x8A; 0x8B; 0x8C; 0x8D; 0x8E; 0x8F; 0x90; 0x91;
   0x92; 0x93; 0x94; 0x95; 0x96; 0x97; 0x98; 0x99; 0x9A; 0x9B; 0x9C; 0x9D;
   0x9E; 0x9F; 0xc2; 0xc3; 0xc6; 0xca].

End Rev0.

(** A state of the first revision and a state of the latest one that hold
    the same registers, memory and flags; the padding of either is left
    out. *)
Definition same_state (s0 : Rev0.State) (s1 : State) : Prop :=
  Rev0.a s0 = a s1 /\ Rev0.b s0 = b s1 /\ Rev0.c s0 = c s1 /\
  Rev0.d s0 = d s1 /\ Rev0.e s0 = e s1 /\ Rev0.h s0 = h s1 /\
  Rev0.l s0 = l s1 /\ Rev0.sp s0 = sp s1 /\ Rev0.pc s0 = pc s1 /\
  Rev0.memory s0 = memory s1 /\
  Rev0.z (Rev0.cond s0) = z (cond s1) /\
  Rev0.s (Rev0.cond s0) = s (cond s1) /\
  Rev0.p (Rev0.cond s0) = p (cond s1) /\
  Rev0.cy (Rev0.cond s0) = cy (cond s1) /\
  Rev0.ac (Rev0.cond s0) = ac (cond s1) /\
  Rev0.enable s0 = enable s1.

(** Two results that end the same way in states that agree. *)
Definition same_result (r0 : Rev0.Result) (r1 : Result) : Prop :=
  match r0, r1 with
  | Rev0.Return t0, Return t1 => same_state t0 t1
  | Rev0.Exit k0 t0, Exit k1 t1 => k0 = k1 /\ same_state t0 t1
  | _, _ => False
  end.
(** ** Ranges of the bit operations *)

Section BitRanges.

Variable n : Z.
Hypothesis n_pos : 0 < n.

Lemma lt_pow2_log2 (x : Z) : 0 <= x -> (x < 2 ^ n <-> Z.log2 x < n).
Proof.
  intros Hx.
  destruct (Z.eq_dec x 0) as [->|Hne].
  - cbn. split; intros _; [lia | apply Z.pow_pos_nonneg; lia].
  - apply Z.log2_lt_pow2. lia.
Qed.

Lemma lor_range (x y : Z) :
  0 <= x < 2 ^ n -> 0 <= y < 2 ^ n -> 0 <= Z.lor x y < 2 ^ n.
Proof.
  intros [Hx0 Hx] [Hy0 Hy].
  assert (H0 : 0 <= Z.lor x y) by (apply Z.lor_nonneg; auto).
  split; [exact H0|].
  apply lt_pow2_log2; [exact H0|].
  rewrite Z.log2_lor by assumption.
  apply lt_pow2_log2 in Hx, Hy; try assumption. lia.
Qed.

Lemma lxor_range (x y : Z) :
  0 <= x < 2 ^ n -> 0 <= y < 2 ^ n -> 0 <= Z.lxor x y < 2 ^ n.
Proof.
  intros [Hx0 Hx] [Hy0 Hy].
  assert (H0 : 0 <= Z.lxor x y) by (apply Z.lxor_nonneg; lia).
  split; [exact H0|].
  apply lt_pow2_log2; [exact H0|].
  pose proof (Z.log2_lxor x y Hx0 Hy0).
  apply lt_pow2_log2 in Hx, Hy; try assumption. lia.
Qed.

Lemma land_range_l (x y : Z) :
  0 <= x < 2 ^ n -> 0 <= y -> 0 <= Z.land x y < 2 ^ n.
Proof.
  intros [Hx0 Hx] Hy0.
  assert (H0 : 0 <= Z.land x y) by (apply Z.land_nonneg; auto).
  split; [exact H0|].
  apply lt_pow2_log2; [exact H0|].
  pose proof (Z.log2_land x y Hx0 Hy0).
  apply lt_pow2_log2 in Hx; try assumption. lia.
Qed.

Lemma shiftr_range (x k : Z) :
  0 <= k -> 0 <= x < 2 ^ n -> 0 <= Z.shiftr x k < 2 ^ n.
Proof.
  intros Hk [Hx0 Hx].
  rewrite Z.shiftr_div_pow2 by assumption.
  assert (0 < 2 ^ k) by (apply Z.pow_pos_nonneg; lia).
  split.
  - apply Z.div_pos; lia.
  - apply Z.le_lt_trans with x; [|assumption].
    apply Z.div_le_upper_bound; nia.
Qed.

End BitRanges.

Create HintDb wf discriminated.

Lemma is_byte_uint8 (x : Z) : is_byte (uint8 x).
Proof. unfold is_byte, uint8. apply Z.mod_pos_bound. lia. Qed.

Lemma is_word_uint16 (x : Z) : is_word (uint16 x).
Proof. unfold is_word, uint16. apply Z.mod_pos_bound. lia. Qed.

Lemma is_byte_lor (x y : Z) : is_byte x -> is_byte y -> is_byte (Z.lor x y).
Proof. apply (lor_range 8). lia. Qed.

Lemma is_byte_lxor (x y : Z) : is_byte x -> is_byte y -> is_byte (Z.lxor x y).
Proof. apply (lxor_range 8). lia. Qed.

Lemma is_byte_land (x y : Z) : is_byte x -> is_byte y -> is_byte (Z.land x y).
Proof. intros Hx Hy. apply (land_range_l 8); [lia | exact Hx | apply Hy]. Qed.

Lemma is_byte_shiftr (x k : Z) : 0 <= k -> is_byte x -> is_byte (Z.shiftr x k).
Proof. intros Hk. apply (shiftr_range 8); lia. Qed.

Lemma is_byte_const (k : Z) : (0 <=? k) && (k <? 256) = true -> is_byte k.
Proof. unfold is_byte. lia. Qed.

Lemma is_byte_word (x : Z) : is_byte x -> is_word x.
Proof. unfold is_byte, is_word. lia. Qed.

Lemma is_word_lor (x y : Z) : is_word x -> is_word y -> is_word (Z.lor x y).
Proof. apply (lor_range 16). lia. Qed.

#[export] Hint Resolve is_byte_uint8 is_word_uint16 is_byte_lor is_byte_lxor
  is_byte_land is_word_lor wf_a wf_b wf_c wf_d wf_e wf_h wf_l wf_sp wf_pc
  wf_memory wf_enable : wf.
#[export] Hint Extern 1 (is_byte (Z.shiftr _ _)) =>
  apply is_byte_shiftr; [lia|] : wf.
#[export] Hint Extern 2 (is_byte _) =>
  apply is_byte_const; reflexivity : wf.

(** Assignments keep a state well formed when the value assigned fits the
    field. *)
Lemma wf_set_a (v : Z) (st : State) : is_byte v -> wf st -> wf (set_a v st).
Proof. intros Hv [? ? ? ? ? ? ? ? ? ? ?]. constructor; assumption. Qed.
Lemma wf_set_b (v : Z) (st : State) : is_byte v -> wf st -> wf (set_b v st).
Proof. intros Hv [? ? ? ? ? ? ? ? ? ? ?]. constructor; assumption. Qed.
Lemma wf_set_c (v : Z) (st : State) : is_byte v -> wf st -> wf (set_c v st).
Proof. intros Hv [? ? ? ? ? ? ? ? ? ? ?]. constructor; assumption. Qed.
Lemma wf_set_d (v : Z) (st : State) : is_byte v -> wf st -> wf (set_d v st).
Proof. intros Hv [? ? ? ? ? ? ? ? ? ? ?]. constructor; assumption. Qed.
Lemma wf_set_e (v : Z) (st : State) : is_byte v -> wf st -> wf (set_e v st).
Proof. intros Hv [? ? ? ? ? ? ? ? ? ? ?]. constructor; assumption. Qed.
Lemma wf_set_h (v : Z) (st : State) : is_byte v -> wf st -> wf (set_h v st).
Proof. intros Hv [? ? ? ? ? ? ? ? ? ? ?]. constructor; assumption. Qed.
Lemma wf_set_l (v : Z) (st : State) : is_byte v -> wf st -> wf (set_l v st).
Proof. intros Hv [? ? ? ? ? ? ? ? ? ? ?]. constructor; assumption. Qed.
Lemma wf_set_sp (v : Z) (st : State) : is_word v -> wf st -> wf (set_sp v st).
Proof. intros Hv [? ? ? ? ? ? ? ? ? ? ?]. constructor; assumption. Qed.
Lemma wf_set_pc (v : Z) (st : State) : is_word v -> wf st -> wf (set_pc v st).
Proof. intros Hv [? ? ? ? ? ? ? ? ? ? ?]. constructor; assumption. Qed.
Lemma wf_upd_cond (f : Conditions -> Conditions) (st : State) :
  wf st -> wf (upd_cond f st).
Proof. intros [? ? ? ? ? ? ? ? ? ? ?]. constructor; assumption. Qed.

Lemma wf_store (addr v : Z) (st : State) : is_byte v -> wf st -> wf (store addr v st).
Proof.
  intros Hv [? ? ? ? ? ? ? ? ? Hm ?]. constructor; try assumption.
  intros x. cbn. destruct (x =? addr); [exact Hv | apply Hm].
Qed.

Lemma wf_if (t : bool) (st1 st2 : State) :
  wf st1 -> wf st2 -> wf (if t then st1 else st2).
Proof. destruct t; auto. Qed.

#[export] Hint Resolve wf_set_a wf_set_b wf_set_c wf_set_d wf_set_e wf_set_h
  wf_set_l wf_set_sp wf_set_pc wf_upd_cond wf_store wf_if : wf.

Lemma wf_parity (answer : Z) (st : State) : wf st -> wf (parity answer st).
Proof. unfold parity. auto with wf. Qed.

Lemma wf_doArithFlags (answer : Z) (st : State) : wf st -> wf (doArithFlags answer st).
Proof. unfold doArithFlags. auto 10 using wf_parity with wf. Qed.

Lemma wf_doLogicFlags (st : State) : wf st -> wf (doLogicFlags st).
Proof. unfold doLogicFlags. auto 10 using wf_parity with wf. Qed.

Lemma wf_doZSPFlags (result : Z) (st : State) : wf st -> wf (doZSPFlags result st).
Proof. unfold doZSPFlags. auto 10 using wf_parity with wf. Qed.

Lemma wf_setCarry (result : Z) (st : State) : wf st -> wf (setCarry result st).
Proof. unfold setCarry. auto with wf. Qed.

Lemma wf_setBC (bc : Z) (st : State) : wf st -> wf (setBC bc st).
Proof. unfold setBC. auto with wf. Qed.

Lemma wf_setDE (de : Z) (st : State) : wf st -> wf (setDE de st).
Proof. unfold setDE. auto with wf. Qed.

Lemma wf_setHL (hl : Z) (st : State) : wf st -> wf (setHL hl st).
Proof. unfold setHL. auto with wf. Qed.

Lemma wf_push (high low : Z) (st : State) :
  is_byte high -> is_byte low -> wf st -> wf (push high low st).
Proof. unfold push. auto 10 with wf. Qed.

Lemma is_word_getAddr (st : State) : wf st -> is_word (getAddr st).
Proof.
  intros H. unfold getAddr.
  apply is_word_lor; [apply is_word_uint16 | apply is_byte_word, H].
Qed.

#[export] Hint Resolve wf_parity wf_doArithFlags wf_doLogicFlags wf_doZSPFlags
  wf_setCarry wf_setBC wf_setDE wf_setHL wf_push is_word_getAddr : wf.

(** The value PUSH PSW packs is a byte. *)
Lemma pack_fields_byte (v : list bool) (psw flag : Z) :
  is_byte psw -> is_byte flag -> is_byte (fst (pack_fields v psw flag)).
Proof.
  revert psw flag.
  induction v as [|field v IH]; intros psw flag Hp Hf; cbn [pack_fields fst].
  - exact Hp.
  - apply IH; [destruct field; auto with wf | auto with wf].
Qed.

(** Every opcode is one of the 256 byte values or lies outside them; the
    switch is decided by the eight low binary digits. *)
Ltac opcode_cases opc :=
  let q := fresh "q" in
  destruct opc as [|q|q];
  [ | do 8 (try destruct q as [q|q|]) | ].

Ltac run_switch :=
  cbv beta iota zeta delta [Emulate_switch ret unimplemented pop snd fst].

(** One instruction keeps the state well formed, also when the process
    exits in it. *)
Lemma Emulate_switch_wf (opc : Z) (st : State) :
  wf st ->
  match snd (Emulate_switch opc st) with
  | Return st' => wf st'
  | Exit _ st' => wf st'
  end.
Proof.
  intros H.
  opcode_cases opc; run_switch; auto 12 with wf.
  (* PUSH PSW: the packed byte comes out of the loop over the fields *)
  pose proof (pack_fields_byte (ValueOf (cond st)) 0 1) as Hpsw.
  destruct (pack_fields (ValueOf (cond st)) 0 1) as [psw flag].
  cbn [fst] in Hpsw. apply wf_push; auto with wf.
Qed.

Lemma Emulate_wf (st : State) :
  wf st ->
  match snd (Emulate st) with
  | Return st' => wf st'
  | Exit _ st' => wf st'
  end.
Proof.
  intros H. unfold Emulate.
  pose proof (Emulate_switch_wf (memory st (pc st)) st H) as Hs.
  destruct (Emulate_switch (memory st (pc st)) st) as [out [st'|code st']];
    cbn [snd] in *; auto with wf.
Qed.

Lemma wf_new_State : wf new_State.
Proof. constructor; cbn; unfold is_byte, is_word; intros; lia. Qed.

Lemma wf_startup (image : list Z) : Forall is_byte image -> wf (startup image).
Proof.
  intros Himg. unfold startup, copy_image.
  destruct wf_new_State as [? ? ? ? ? ? ? ? ? Hm ?].
  constructor; try assumption.
  intros x. cbn [memory set_memory].
  destruct ((0 <=? x) && (x <? _)) eqn:Hx; [|apply Hm].
  destruct (nth_in_or_default (Z.to_nat x) image 0) as [Hin | ->].
  - rewrite Forall_forall in Himg. apply Himg, Hin.
  - unfold is_byte. lia.
Qed.

(** Every state of the driver loop is well formed when the image is a
    sequence of bytes. *)
Lemma Reachable_wf (image : list Z) (st : State) :
  Forall is_byte image -> Reachable image st -> wf st.
Proof.
  intros Himg Hr. induction Hr as [|st out st' _ IH Hstep].
  - apply wf_startup, Himg.
  - pose proof (Emulate_wf st IH) as Hw. rewrite Hstep in Hw. exact Hw.
Qed.

(** ** Unimplemented opcodes *)

Lemma Emulate_switch_unimplemented (opc : Z) (st : State) :
  has_semantics opc = false -> Emulate_switch opc st = unimplemented st.
Proof.
  intros H.
  opcode_cases opc; first [reflexivity | vm_compute in H; discriminate H].
Qed.

(** The opcodes of [implemented] never reach the fault: their case returns
    to the loop, or it is HLT and the process exits with status 0. *)
Lemma Emulate_switch_implemented (opc : Z) (st : State) :
  has_semantics opc = true ->
  (exists st', Emulate_switch opc st = ([], Return st')) \/
  Emulate_switch opc st = ([], Exit 0 st).
Proof.
  intros H.
  opcode_cases opc; try (vm_compute in H; discriminate H); run_switch;
    first [left; eexists; reflexivity | right; reflexivity].
Qed.

Lemma unimplemented_switch_fault (st : State) :
  has_semantics (memory st (pc st)) = false ->
  Emulate st =
    ([ trace_line st;
       ("Unimplemented: 0x" ++ fmt02x (memory st (pc st)) ++ newline)%string ],
     Exit 1 st).
Proof.
  intros H. unfold Emulate.
  rewrite (Emulate_switch_unimplemented _ st H).
  reflexivity.
Qed.

(** C7. For every state whose program counter points at an opcode with no
    semantics in the engine, [Emulate] prints the trace line (program
    counter and opcode) and the line "Unimplemented: 0x.." with the
    opcode, and the process exits with status 1; the state is the one the
    call started from. *)
Theorem unimplemented_opcode_faults (st : State) :
  has_semantics (memory st (pc st)) = false ->
  Emulate st =
    ([ (fmt06d (pc st) ++ ": 0x" ++ fmt02x (memory st (pc st)) ++ newline)%string;
       ("Unimplemented: 0x" ++ fmt02x (memory st (pc st)) ++ newline)%string ],
     Exit 1 st).
Proof.
  intros H. exact (unimplemented_switch_fault st H).
Qed.

Lemma unimplemented_opcode_faults_witness :
  Emulate (startup [0xff]) =
    ([ ("000000: 0xff" ++ newline)%string;
       ("Unimplemented: 0xff" ++ newline)%string ],
     Exit 1 (startup [0xff])).
Proof.
  exact (unimplemented_opcode_faults (startup [0xff]) eq_refl).
Defined.

(** ** The interrupt-enable byte *)

Ltac split_ifs :=
  repeat match goal with
         | |- context [if ?t then _ else _] => destruct t
         end.

Lemma Emulate_switch_enable (opc : Z) (st : State) :
  enable (state_of (snd (Emulate_switch opc st))) = enable st.
Proof.
  opcode_cases opc; run_switch; split_ifs; reflexivity.
Qed.

Lemma Emulate_enable (st : State) :
  enable (state_of (snd (Emulate st))) = enable st.
Proof.
  unfold Emulate.
  pose proof (Emulate_switch_enable (memory st (pc st)) st) as H.
  destruct (Emulate_switch (memory st (pc st)) st) as [out [st'|code st']];
    exact H.
Qed.

Lemma Reachable_enable (image : list Z) (st : State) :
  Reachable image st -> enable st = 0.
Proof.
  intros Hr. induction Hr as [|st out st' _ IH Hstep].
  - reflexivity.
  - pose proof (Emulate_enable st) as H. rewrite Hstep in H.
    cbn [snd state_of] in H. congruence.
Qed.

(** C10. In every state the driver loop reaches from the zero start-up
    state the interrupt-enable byte is 0: a call of [Emulate] that returns
    leaves the byte as it found it, and the opcodes EI (0xfb) and DI
    (0xf3) end in the unimplemented fault with the state untouched. *)
Theorem enable_stays_zero (image : list Z) (st : State) :
  Reachable image st ->
  enable st = 0 /\
  (forall out st', Emulate st = (out, Return st') -> enable st' = enable st) /\
  (memory st (pc st) = 0xf3 \/ memory st (pc st) = 0xfb ->
   snd (Emulate st) = Exit 1 st).
Proof.
  intros Hr. split; [exact (Reachable_enable image st Hr)|]. split.
  - intros out st' Hstep.
    pose proof (Emulate_enable st) as H. rewrite Hstep in H. exact H.
  - intros Hop. rewrite unimplemented_switch_fault; [reflexivity|].
    destruct Hop as [-> | ->]; reflexivity.
Qed.

Lemma enable_stays_zero_witness :
  enable (startup [0xfb]) = 0 /\
  (forall out st',
     Emulate (startup [0xfb]) = (out, Return st') ->
     enable st' = enable (startup [0xfb])) /\
  (memory (startup [0xfb]) (pc (startup [0xfb])) = 0xf3 \/
   memory (startup [0xfb]) (pc (startup [0xfb])) = 0xfb ->
   snd (Emulate (startup [0xfb])) = Exit 1 (startup [0xfb])).
Proof.
  apply (enable_stays_zero [0xfb] (startup [0xfb])).
  apply Reachable_startup.
Defined.

(** ** Arithmetic on bytes and words *)

Lemma land_0xFF (x : Z) : Z.land x 0xFF = x mod 256.
Proof. change 0xFF with (Z.ones 8). rewrite Z.land_ones by lia. reflexivity. Qed.

Lemma uint16_small (x : Z) : 0 <= x < 65536 -> uint16 x = x.
Proof. intros H. unfold uint16. apply Z.mod_small. exact H. Qed.

Lemma uint8_small (x : Z) : 0 <= x < 256 -> uint8 x = x.
Proof. intros H. unfold uint8. apply Z.mod_small. exact H. Qed.

Lemma is_byte_get_reg (r : Reg) (st : State) : wf st -> is_byte (get_reg r st).
Proof. intros H. destruct r; cbn; auto with wf. Qed.

(** Which fields the flag helpers write. *)
Lemma doArithFlags_cond (answer : Z) (st : State) :
  cond (doArithFlags answer st) =
    mkConditions (answer >? CARRY) (pad1 (cond st))
                 (Z.land (parity_loop 8 (Z.land (uint8 answer) 255) 0) 1 =? 0)
                 (pad2 (cond st)) (ac (cond st)) (pad3 (cond st))
                 (Z.land answer ZERO =? 0) (negb (Z.land answer SIGN =? 0)).
Proof. reflexivity. Qed.

Lemma doArithFlags_a (answer : Z) (st : State) : a (doArithFlags answer st) = a st.
Proof. reflexivity. Qed.

(** ** ADD *)

Lemma Emulate_ADD (st : State) (r : Reg) :
  memory st (pc st) = ADD_opcode (OnReg r) ->
  Emulate st =
    ([trace_line st],
     let answer := uint16 (a st + get_reg r st) in
     Return (set_pc (uint16 (pc st + 1))
               (set_a (uint8 (Z.land answer ROUND)) (doArithFlags answer st)))).
Proof.
  intros Hop. unfold Emulate, trace_line. rewrite Hop.
  destruct r; reflexivity.
Qed.

(** C6. For every accumulator value and every operand register value,
    ADD sets CY exactly when the sum of the two exceeds 0xFF, and the
    accumulator receives the sum modulo 256. *)
Theorem ADD_sum_and_carry (st : State) (r : Reg) :
  wf st ->
  memory st (pc st) = ADD_opcode (OnReg r) ->
  exists out st',
    Emulate st = (out, Return st') /\
    (cy (cond st') = true <-> a st + get_reg r st > 0xFF) /\
    a st' = (a st + get_reg r st) mod 256.
Proof.
  intros Hwf Hop.
  rewrite (Emulate_ADD st r Hop).
  pose proof (wf_a st Hwf) as Ha.
  pose proof (is_byte_get_reg r st Hwf) as Hr.
  unfold is_byte in Ha, Hr.
  eexists. eexists. split; [reflexivity|].
  cbv zeta. cbn [cond set_pc set_a a].
  rewrite doArithFlags_cond. cbn [cy].
  rewrite uint16_small by lia.
  split.
  - unfold CARRY. rewrite Z.gtb_ltb, Z.ltb_lt. lia.
  - unfold ROUND. rewrite land_0xFF. unfold uint8.
    rewrite Z.mod_mod by lia. reflexivity.
Qed.

Lemma ADD_sum_and_carry_witness :
  exists out st',
    Emulate (set_b 0x91 (set_a 0xf0 (startup [0x80]))) = (out, Return st') /\
    (cy (cond st') = true <->
     a (set_b 0x91 (set_a 0xf0 (startup [0x80]))) +
     get_reg RegB (set_b 0x91 (set_a 0xf0 (startup [0x80]))) > 0xFF) /\
    a st' = (a (set_b 0x91 (set_a 0xf0 (startup [0x80]))) +
             get_reg RegB (set_b 0x91 (set_a 0xf0 (startup [0x80])))) mod 256.
Proof.
  apply (ADD_sum_and_carry (set_b 0x91 (set_a 0xf0 (startup [0x80]))) RegB).
  - apply wf_set_b; [unfold is_byte; lia|].
    apply wf_set_a; [unfold is_byte; lia|].
    apply wf_startup. repeat constructor; unfold is_byte; lia.
  - reflexivity.
Defined.

(** ** The flags of an arithmetic result *)

(** Case analysis on a byte: the 256 values one by one. *)
Ltac byte_cases x H :=
  let q := fresh "q" in
  unfold is_byte in H;
  destruct x as [|q|q];
  [ | do 8 (try destruct q as [q|q|]) | ];
  try lia.

Lemma parity_loop_even (x : Z) :
  is_byte x ->
  (Z.land (parity_loop 8 x 0) 1 =? 0) = Nat.even (ones_count x).
Proof.
  intros H. byte_cases x H; reflexivity.
Qed.

Lemma parity_p (x : Z) (st : State) :
  p (cond (parity x st)) = Nat.even (ones_count (x mod 256)).
Proof.
  unfold parity. cbn [cond upd_cond set_cond set_p p].
  change (Z.shiftl 1 8 - 1) with 0xFF. rewrite land_0xFF.
  apply parity_loop_even. apply is_byte_uint8.
Qed.

Lemma land_pow2 (x k : Z) :
  0 <= k -> Z.land x (2 ^ k) = if Z.testbit x k then 2 ^ k else 0.
Proof.
  intros Hk. apply Z.bits_inj'. intros i Hi.
  rewrite Z.land_spec, Z.pow2_bits_eqb by assumption.
  destruct (Z.eqb_spec k i) as [->|Hne].
  - destruct (Z.testbit x i) eqn:E; cbn.
    + rewrite Z.pow2_bits_true by assumption. reflexivity.
    + rewrite Z.bits_0. reflexivity.
  - rewrite andb_false_r.
    destruct (Z.testbit x k).
    + rewrite Z.pow2_bits_false by assumption. reflexivity.
    + rewrite Z.bits_0. reflexivity.
Qed.

Lemma sign_bit (x : Z) :
  negb (Z.land x SIGN =? 0) = Z.testbit (x mod 256) 7.
Proof.
  change SIGN with (2 ^ 7). rewrite land_pow2 by lia.
  change 256 with (2 ^ 8). rewrite Z.mod_pow2_bits_low by lia.
  destruct (Z.testbit x 7); reflexivity.
Qed.

(** What [doArithFlags] leaves in the five flags, in terms of the low
    byte of the 16-bit result and of its excess over 0xFF. *)
Lemma doArithFlags_flags (answer : Z) (st : State) :
  let f := cond (doArithFlags answer st) in
  z f = (answer mod 256 =? 0) /\
  s f = Z.testbit (answer mod 256) 7 /\
  cy f = (0xFF <? answer) /\
  p f = Nat.even (ones_count (answer mod 256)) /\
  ac f = ac (cond st) /\
  pad1 f = pad1 (cond st) /\ pad2 f = pad2 (cond st) /\ pad3 f = pad3 (cond st).
Proof.
  cbv zeta. repeat split.
  - cbn. rewrite land_0xFF. reflexivity.
  - rewrite <- sign_bit. reflexivity.
  - cbn [doArithFlags cond upd_cond set_cond parity set_p set_cy cy].
    unfold CARRY. apply Z.gtb_ltb.
  - unfold doArithFlags. cbv zeta. rewrite parity_p.
    unfold uint8. rewrite Z.mod_mod by lia. reflexivity.
Qed.

(** ** CMP *)

Lemma Emulate_CMP (st : State) (r : Reg) :
  memory st (pc st) = CMP_opcode (OnReg r) ->
  Emulate st =
    ([trace_line st],
     Return (set_pc (uint16 (pc st + 1))
               (doArithFlags (uint16 (a st - get_reg r st)) st))).
Proof.
  intros Hop. unfold Emulate, trace_line. rewrite Hop.
  destruct r; reflexivity.
Qed.

(** The 16-bit difference of two bytes: its low byte, and when it exceeds
    0xFF. *)
Lemma byte_difference (x y : Z) :
  is_byte x -> is_byte y ->
  uint16 (x - y) mod 256 = (x - y) mod 256 /\
  (0xFF <? uint16 (x - y)) = (x <? y).
Proof.
  unfold is_byte, uint16. intros Hx Hy. split.
  - change 65536 with (256 * 256).
    rewrite Z.rem_mul_r by lia.
    rewrite Z.mul_comm, Z.mod_add by lia. apply Z.mod_mod. lia.
  - destruct (Z.ltb_spec x y) as [Hlt|Hge].
    + apply Z.ltb_lt.
      replace (x - y) with (x - y + 65536 + (-1) * 65536) by lia.
      rewrite Z.mod_add by lia. rewrite Z.mod_small by lia. lia.
    + apply Z.ltb_ge. rewrite Z.mod_small by lia. lia.
Qed.

(** Every CMP, the memory form included, returns with the accumulator it
    started with. *)
Lemma CMP_accumulator_unchanged (st : State) (o : Operand) :
  memory st (pc st) = CMP_opcode o ->
  exists out st', Emulate st = (out, Return st') /\ a st' = a st.
Proof.
  intros Hop. unfold Emulate. rewrite Hop.
  destruct o as [[]|]; eexists; eexists; split; reflexivity.
Qed.

(** CMP on a register (B, C, D, E, H, L or A): the flags are the ones
    [doArithFlags] derives from the 16-bit difference accumulator minus
    register: Z from the low byte being zero, S from its bit 7, CY from
    the borrow, P from the parity of the low byte; AC stays. *)
Lemma CMP_register_flags (st : State) (r : Reg) :
  wf st ->
  memory st (pc st) = CMP_opcode (OnReg r) ->
  exists out st',
    Emulate st = (out, Return st') /\
    a st' = a st /\
    cond st' = cond (doArithFlags (uint16 (a st - get_reg r st)) st) /\
    z (cond st') = ((a st - get_reg r st) mod 256 =? 0) /\
    s (cond st') = Z.testbit ((a st - get_reg r st) mod 256) 7 /\
    cy (cond st') = (a st <? get_reg r st) /\
    p (cond st') = Nat.even (ones_count ((a st - get_reg r st) mod 256)) /\
    ac (cond st') = ac (cond st).
Proof.
  intros Hwf Hop.
  rewrite (Emulate_CMP st r Hop).
  pose proof (is_byte_get_reg r st Hwf) as Hv.
  pose proof (wf_a st Hwf) as Ha.
  destruct (byte_difference _ _ Ha Hv) as [Hlow Hborrow].
  pose proof (doArithFlags_flags (uint16 (a st - get_reg r st)) st) as Hf.
  cbv zeta in Hf. rewrite Hlow, Hborrow in Hf.
  destruct Hf as (Hz & Hs & Hc & Hp & Hac & _).
  eexists. eexists. split; [reflexivity|].
  cbn [a cond set_pc]. rewrite doArithFlags_a. auto 10.
Qed.

(** C5 at a concrete image. INR A, then CMP M with A = 1 and H = L = 0, so
    that the H/L pair addresses cell 0 (holding 0x3c) while the two bytes
    after the CMP opcode form the address 0x0004, whose cell holds 0x01.
    The accumulator is unchanged, but the flags come from 1 - 0x01 (Z set,
    CY clear), the difference with the cell the operand bytes address; the
    difference with the cell H/L addresses, 1 - 0x3c, gives Z clear and CY
    set. *)
Theorem CMP_M_reads_operand_address :
  match snd (run 1 (startup [0x3c; 0xbe; 0x04; 0x00; 0x01])) with
  | Return st =>
      a st = 1 /\
      memory st (pc st) = CMP_opcode OnM /\
      getHL st = 0 /\ memory st (getHL st) = 0x3c /\
      getAddr st = 4 /\ memory st (getAddr st) = 0x01 /\
      z (cond (doArithFlags (uint16 (a st - memory st (getHL st))) st)) = false /\
      cy (cond (doArithFlags (uint16 (a st - memory st (getHL st))) st)) = true /\
      match snd (Emulate st) with
      | Return st' =>
          a st' = 1 /\ z (cond st') = true /\ cy (cond st') = false
      | Exit _ _ => False
      end
  | Exit _ _ => False
  end.
Proof.
  vm_compute. repeat split.
Qed.

(** ** Logic operations *)

(** What the 24 register and memory cases do to CY: [doLogicFlags]
    assigns it the negation of AC, and AC itself stays. *)
Lemma logic_op_carry_from_ac (st : State) (op : LogicOp) (o : Operand) :
  memory st (pc st) = logic_opcode op o ->
  exists out st',
    Emulate st = (out, Return st') /\
    cy (cond st') = negb (ac (cond st)) /\
    ac (cond st') = ac (cond st).
Proof.
  intros Hop. unfold Emulate. rewrite Hop.
  destruct op, o as [[]|]; (eexists; eexists; split; [reflexivity|]);
    split; reflexivity.
Qed.

(** The immediate forms ANI, XRI and ORI have no case in the switch: they
    end in the unimplemented fault. *)
Lemma logic_immediate_forms_fault (st : State) (op : LogicOp) :
  memory st (pc st) = logic_immediate_opcode op ->
  snd (Emulate st) = Exit 1 st.
Proof.
  intros Hop. rewrite unimplemented_switch_fault; [reflexivity|].
  rewrite Hop. destruct op; reflexivity.
Qed.

(** C3 at concrete images. ANA B on the start-up state, where every
    register and flag is zero: the call returns with CY set, though CY was
    clear before.  XRA A and ORA B on the start-up state do the same.  AC
    is clear there, as in every state that has not executed POP PSW, and
    [doLogicFlags] assigns CY the negation of AC. *)
Theorem logic_op_sets_carry_at_startup :
  (exists out st',
     Emulate (startup [0xa0]) = (out, Return st') /\
     cy (cond (startup [0xa0])) = false /\
     cy (cond st') = true) /\
  (exists out st',
     Emulate (startup [0xaf]) = (out, Return st') /\ cy (cond st') = true) /\
  (exists out st',
     Emulate (startup [0xb0]) = (out, Return st') /\ cy (cond st') = true).
Proof.
  repeat split; eexists; eexists; repeat split.
Qed.

(** ** Jumps *)

Lemma lor_high_low (hi lo : Z) :
  0 <= lo < 256 -> Z.lor (Z.shiftl hi 8) lo = lo + 256 * hi.
Proof.
  intros Hlo.
  assert (Hl : Z.land (Z.shiftl hi 8) lo = 0).
  { apply Z.bits_inj'. intros i Hi. rewrite Z.land_spec, Z.bits_0.
    destruct (Z.ltb_spec i 8) as [Hlt|Hge].
    - rewrite Z.shiftl_spec_low by assumption. reflexivity.
    - replace (Z.testbit lo i) with false; [apply andb_false_r|].
      symmetry. destruct (Z.eq_dec lo 0) as [->|Hne]; [apply Z.bits_0|].
      apply Z.bits_above_log2; [lia|].
      apply Z.lt_le_trans with 8; [|assumption].
      apply Z.log2_lt_pow2; lia. }
  rewrite <- Z.lxor_lor by exact Hl.
  rewrite <- Z.add_nocarry_lxor by exact Hl.
  rewrite Z.shiftl_mul_pow2 by lia. change (2 ^ 8) with 256. lia.
Qed.

Lemma getAddr_address_operand (st : State) :
  wf st -> getAddr st = address_operand st.
Proof.
  intros Hwf. unfold getAddr, address_operand.
  pose proof (wf_memory st Hwf (uint16 (pc st + 1))) as Hlo.
  pose proof (wf_memory st Hwf (uint16 (pc st + 2))) as Hhi.
  unfold is_byte in Hlo, Hhi.
  rewrite uint16_small.
  - apply lor_high_low. exact Hlo.
  - rewrite Z.shiftl_mul_pow2 by lia. change (2 ^ 8) with 256. lia.
Qed.

Lemma Emulate_jump (st : State) (j : Jump) :
  memory st (pc st) = jump_opcode j ->
  Emulate st =
    ([trace_line st],
     Return (set_pc
               (uint16 ((if jump_taken j (cond st)
                         then getAddr st
                         else uint16 (pc st + match j with JPO => 1 | _ => 2 end))
                        + 1))
               st)).
Proof.
  intros Hop. unfold Emulate, trace_line. rewrite Hop.
  destruct j; cbn [jump_taken jump_opcode]; run_switch;
    try reflexivity;
    match goal with
    | |- context [if negb ?t then _ else _] => destruct t; reflexivity
    | |- context [if ?t then _ else _] => destruct t; reflexivity
    end.
Qed.

(** Where a jump leaves the program counter: one past the address operand
    when it is taken; past the instruction when it is not, except for JPO,
    whose else branch adds 1 where the others add 2. *)
Lemma jump_taken_pc (st : State) (j : Jump) :
  wf st ->
  memory st (pc st) = jump_opcode j ->
  jump_taken j (cond st) = true ->
  exists out st',
    Emulate st = (out, Return st') /\
    pc st' = uint16 (address_operand st + 1).
Proof.
  intros Hwf Hop Ht. rewrite (Emulate_jump st j Hop), Ht.
  rewrite (getAddr_address_operand st Hwf).
  eexists. eexists. split; reflexivity.
Qed.

Lemma jump_not_taken_pc (st : State) (j : Jump) :
  wf st ->
  memory st (pc st) = jump_opcode j ->
  jump_taken j (cond st) = false ->
  exists out st',
    Emulate st = (out, Return st') /\
    pc st' = uint16 (pc st + match j with JPO => 2 | _ => 3 end).
Proof.
  intros Hwf Hop Ht. rewrite (Emulate_jump st j Hop), Ht.
  eexists. eexists. split; [reflexivity|].
  cbn [pc set_pc]. unfold uint16.
  destruct j; rewrite Zplus_mod_idemp_l; f_equal; lia.
Qed.

(** C1 at a concrete image. JMP 0x0010 at address 0: the call returns with
    the program counter at 0x0011, one past the address operand. *)
Theorem JMP_lands_one_past_operand :
  exists out st',
    Emulate (startup [0xc3; 0x10; 0x00]) = (out, Return st') /\
    address_operand (startup [0xc3; 0x10; 0x00]) = 0x10 /\
    jump_taken JMP (cond (startup [0xc3; 0x10; 0x00])) = true /\
    pc st' = 0x11.
Proof.
  eexists. eexists. repeat split.
Qed.

(** JPO with the parity flag set does not jump and leaves the program
    counter 2 past the opcode, inside its own operand. *)
Lemma JPO_not_taken_advances_two :
  exists out st',
    Emulate (upd_cond (set_p true) (startup [0xe2; 0x10; 0x00])) = (out, Return st') /\
    jump_taken JPO (cond (upd_cond (set_p true) (startup [0xe2; 0x10; 0x00]))) = false /\
    pc st' = 2.
Proof.
  eexists. eexists. repeat split.
Qed.

(** ** MOV with the memory operand *)

Lemma Emulate_MOV_from_M (st : State) (r : Reg) :
  memory st (pc st) = MOV_from_M r ->
  exists st',
    Emulate st = ([trace_line st], Return st') /\
    get_reg r st' = memory st (getAddr st) /\
    cond st' = cond st /\
    memory st' = memory st /\
    pc st' = uint16 (pc st + 1).
Proof.
  intros Hop. unfold Emulate, trace_line. rewrite Hop.
  destruct r; (eexists; split; [reflexivity|]); repeat split.
Qed.

Lemma Emulate_MOV_to_M (st : State) (r : Reg) :
  memory st (pc st) = MOV_to_M r ->
  exists st',
    Emulate st = ([trace_line st], Return st') /\
    memory st' (getAddr st) = get_reg r st /\
    (forall x, x <> getAddr st -> memory st' x = memory st x) /\
    cond st' = cond st /\
    pc st' = uint16 (pc st + 1).
Proof.
  intros Hop. unfold Emulate, trace_line. rewrite Hop.
  destruct r; (eexists; split; [reflexivity|]);
    cbn [memory store set_memory set_pc get_reg cond pc];
    (split; [rewrite Z.eqb_refl; reflexivity|]);
    (split; [|split; reflexivity]);
    intros x Hx; apply Z.eqb_neq in Hx; rewrite Hx; reflexivity.
Qed.

(** C2 at a concrete image. MOV B,M at address 0 with H = L = 0, so that
    the H/L pair addresses cell 0 (holding the opcode 0x46); the two bytes
    after the opcode form the address 0x0003, whose cell holds 0x99.  The
    call returns with 0x99 in B: the cell read is the one the two bytes
    after the opcode address, not the one H/L addresses. *)
Theorem MOV_B_M_reads_operand_address :
  exists out st',
    Emulate (startup [0x46; 0x03; 0x00; 0x99]) = (out, Return st') /\
    getHL (startup [0x46; 0x03; 0x00; 0x99]) = 0 /\
    memory (startup [0x46; 0x03; 0x00; 0x99]) 0 = 0x46 /\
    getAddr (startup [0x46; 0x03; 0x00; 0x99]) = 3 /\
    b st' = 0x99 /\
    cond st' = cond (startup [0x46; 0x03; 0x00; 0x99]).
Proof.
  eexists. eexists. repeat split.
Qed.

(** MOV M,A with A = 0x55 from the same layout: cell 3 receives the byte,
    cell 0 (the one H/L addresses) keeps the opcode. *)
Lemma MOV_M_A_writes_operand_address :
  exists out st',
    Emulate (set_a 0x55 (startup [0x77; 0x03; 0x00; 0x99])) = (out, Return st') /\
    getHL (set_a 0x55 (startup [0x77; 0x03; 0x00; 0x99])) = 0 /\
    memory st' 0 = 0x77 /\
    memory st' 3 = 0x55.
Proof.
  eexists. eexists. repeat split.
Qed.

(** ** setBC, setDE, setHL *)

(** What the three setters store, for any 16-bit argument: the register
    written second receives the low byte, the register written first the
    low byte of [255 * v] (the shift takes bits 15..8 of the product
    [v * 0xff00], not of [v]). *)
Lemma shifted_product (v : Z) :
  uint8 (Z.shiftr (uint16 (v * 0xff00)) 8) = (255 * v) mod 256.
Proof.
  unfold uint8, uint16.
  rewrite Z.shiftr_div_pow2 by lia. change (2 ^ 8) with 256.
  replace (v * 0xff00) with (255 * v * 256) by lia.
  change 65536 with (256 * 256).
  rewrite Z.mul_mod_distr_r by lia.
  rewrite Z.div_mul by lia. apply Z.mod_mod. lia.
Qed.

Lemma setBC_fields (v : Z) (st : State) :
  b (setBC v st) = (255 * v) mod 256 /\ c (setBC v st) = v mod 256.
Proof.
  unfold setBC. cbn [b c set_b set_c].
  rewrite shifted_product, land_0xFF. unfold uint8.
  rewrite Z.mod_mod by lia. split; reflexivity.
Qed.

Lemma setDE_fields (v : Z) (st : State) :
  e (setDE v st) = (255 * v) mod 256 /\ d (setDE v st) = v mod 256.
Proof.
  unfold setDE. cbn [d e set_d set_e].
  rewrite shifted_product, land_0xFF. unfold uint8.
  rewrite Z.mod_mod by lia. split; reflexivity.
Qed.

Lemma setHL_fields (v : Z) (st : State) :
  l (setHL v st) = (255 * v) mod 256 /\ h (setHL v st) = v mod 256.
Proof.
  unfold setHL. cbn [h l set_h set_l].
  rewrite shifted_product, land_0xFF. unfold uint8.
  rewrite Z.mod_mod by lia. split; reflexivity.
Qed.

(** C4 at the argument 0x1234 (high byte 0x12, low byte 0x34). setBC
    leaves 0xCC in B and 0x34 in C; setDE and setHL leave the low byte
    0x34 in the high register (D, H) and 0xCC in the low one (E, L).  No
    register receives the high byte 0x12. *)
Theorem setPair_0x1234 :
  (b (setBC 0x1234 new_State) = 0xCC /\ c (setBC 0x1234 new_State) = 0x34) /\
  (d (setDE 0x1234 new_State) = 0x34 /\ e (setDE 0x1234 new_State) = 0xCC) /\
  (h (setHL 0x1234 new_State) = 0x34 /\ l (setHL 0x1234 new_State) = 0xCC) /\
  getBC (setBC 0x1234 new_State) = 0xCC34 /\
  getDE (setDE 0x1234 new_State) = 0x34CC /\
  getHL (setHL 0x1234 new_State) = 0x34CC.
Proof.
  repeat split.
Qed.

(** The same through an instruction: DCX B on the start-up state, where
    BC = 0, returns with B = 0x01 and C = 0xFF. *)
Lemma DCX_B_from_zero :
  exists out st',
    Emulate (startup [0x0b]) = (out, Return st') /\
    b st' = 0x01 /\ c st' = 0xFF.
Proof.
  eexists. eexists. repeat split.
Qed.

(** ** PUSH and POP *)

Lemma Emulate_PUSH (st : State) (rp : RegPair) :
  memory st (pc st) = PUSH_opcode rp ->
  Emulate st =
    ([trace_line st],
     Return (set_pc (uint16 (pc st + 1))
               (push (pair_high rp st) (pair_low rp st) st))).
Proof.
  intros Hop. unfold Emulate, trace_line. rewrite Hop.
  destruct rp; reflexivity.
Qed.

Lemma Emulate_POP (st : State) (rp : RegPair) :
  memory st (pc st) = POP_opcode rp ->
  exists st',
    Emulate st = ([trace_line st], Return st') /\
    pair_high rp st' = memory st (uint16 (sp st + 1)) /\
    pair_low rp st' = memory st (sp st) /\
    sp st' = uint16 (sp st + 2).
Proof.
  intros Hop. unfold Emulate, trace_line. rewrite Hop.
  destruct rp; (eexists; split; [reflexivity|]); repeat split.
Qed.

(** The stack after [push]: the stack pointer two lower, [low] at the new
    top and [high] above it. *)
Lemma push_stack (high low : Z) (st : State) :
  is_word (sp st) ->
  let st' := push high low st in
  sp st' = uint16 (sp st - 2) /\
  uint16 (sp st' + 2) = sp st /\
  memory st' (sp st') = low /\
  memory st' (uint16 (sp st' + 1)) = high.
Proof.
  intros Hsp. cbv zeta. unfold push. cbv zeta.
  cbn [sp memory store set_memory set_sp].
  unfold is_word in Hsp.
  assert (H1 : uint16 (uint16 (sp st - 2) + 1) = uint16 (sp st - 1)).
  { unfold uint16. rewrite Zplus_mod_idemp_l. f_equal. lia. }
  assert (H2 : uint16 (sp st - 1) <> uint16 (sp st - 2)).
  { unfold uint16. intros Heq.
    destruct (Z_lt_ge_dec (sp st) 2) as [Hlt|Hge].
    - destruct (Z.eq_dec (sp st) 0) as [E0|E0].
      + rewrite E0 in Heq. vm_compute in Heq. discriminate.
      + replace (sp st) with 1 in Heq by lia. vm_compute in Heq. discriminate.
    - rewrite !Z.mod_small in Heq by lia. lia. }
  repeat split.
  - unfold uint16. rewrite Zplus_mod_idemp_l.
    replace (sp st - 2 + 2) with (sp st) by lia. apply Z.mod_small. exact Hsp.
  - rewrite Z.eqb_refl. reflexivity.
  - rewrite H1. apply Z.eqb_neq in H2. rewrite H2, Z.eqb_refl. reflexivity.
Qed.

(** C8. Two calls of [Emulate], the first on PUSH of a register pair and
    the second, the instruction executed right after it, on POP of the
    same pair: both calls return, and the two registers of the pair, hence
    its 16-bit value, and the stack pointer are as before the PUSH. *)
Theorem PUSH_POP_restores (st : State) (rp : RegPair) :
  wf st ->
  memory st (pc st) = PUSH_opcode rp ->
  memory (state_of (snd (Emulate st))) (pc (state_of (snd (Emulate st))))
    = POP_opcode rp ->
  exists out st2,
    run 2 st = (out, Return st2) /\
    pair_high rp st2 = pair_high rp st /\
    pair_low rp st2 = pair_low rp st /\
    getPair rp st2 = getPair rp st /\
    sp st2 = sp st.
Proof.
  intros Hwf Hpush Hpop.
  cbn [run]. rewrite (Emulate_PUSH st rp Hpush) in *.
  cbn [snd state_of] in Hpop.
  destruct (Emulate_POP _ rp Hpop) as (st2 & Hrun & Hhigh & Hlow & Hsp).
  rewrite Hrun.
  cbn [sp memory set_pc] in Hhigh, Hlow, Hsp.
  destruct (push_stack (pair_high rp st) (pair_low rp st) st (wf_sp st Hwf))
    as (_ & Hsp2 & Hl & Hh).
  rewrite Hh in Hhigh. rewrite Hl in Hlow. rewrite Hsp2 in Hsp.
  eexists. exists st2. split; [reflexivity|].
  repeat split; try assumption.
  destruct rp; cbn [getPair pair_high pair_low] in *;
    unfold getBC, getDE, getHL; rewrite Hhigh, Hlow; reflexivity.
Qed.

Lemma PUSH_POP_restores_witness :
  exists out st2,
    run 2 (set_c 0x34 (set_b 0x12 (startup [0xc5; 0xc1]))) = (out, Return st2) /\
    pair_high PairB st2 = 0x12 /\
    pair_low PairB st2 = 0x34 /\
    getPair PairB st2 = 0x1234 /\
    sp st2 = 0.
Proof.
  apply (PUSH_POP_restores (set_c 0x34 (set_b 0x12 (startup [0xc5; 0xc1]))) PairB).
  - apply wf_set_c; [unfold is_byte; lia|].
    apply wf_set_b; [unfold is_byte; lia|].
    apply wf_startup. repeat constructor; unfold is_byte; lia.
  - reflexivity.
  - vm_compute. reflexivity.
Defined.

(** ** The flag byte of PUSH PSW *)

(** The byte the loop over the fields builds: bit [i] is field [i] of the
    condition record, in declaration order. *)
Lemma pack_fields_bits (f : Conditions) :
  let psw := fst (pack_fields (ValueOf f) 0 0x01) in
  Z.testbit psw 0 = cy f /\
  Z.testbit psw 1 = pad1 f /\
  Z.testbit psw 2 = p f /\
  Z.testbit psw 3 = pad2 f /\
  Z.testbit psw 4 = ac f /\
  Z.testbit psw 5 = pad3 f /\
  Z.testbit psw 6 = z f /\
  Z.testbit psw 7 = s f /\
  is_byte psw.
Proof.
  destruct f as [[] [] [] [] [] [] [] []]; vm_compute; repeat split;
    discriminate.
Qed.

Lemma Emulate_PUSH_PSW (st : State) :
  memory st (pc st) = 0xf5 ->
  Emulate st =
    ([trace_line st],
     Return (set_pc (uint16 (pc st + 1))
               (push (a st) (fst (pack_fields (ValueOf (cond st)) 0 0x01)) st))).
Proof.
  intros Hop. unfold Emulate, trace_line. rewrite Hop. reflexivity.
Qed.

(** C9, as the code has it. The flag byte PUSH PSW writes (at the new top
    of the stack, two below the old stack pointer) carries the eight
    fields of the condition record in declaration order: bit 0 = CY,
    bit 1 = pad1, bit 2 = P, bit 3 = pad2, bit 4 = AC, bit 5 = pad3,
    bit 6 = Z, bit 7 = S.  Bits 1, 3 and 5 are the stored padding bits,
    not constants. *)
Theorem PUSH_PSW_layout (st : State) :
  memory st (pc st) = 0xf5 ->
  exists out st',
    Emulate st = (out, Return st') /\
    sp st' = uint16 (sp st - 2) /\
    Z.testbit (memory st' (sp st')) 0 = cy (cond st) /\
    Z.testbit (memory st' (sp st')) 1 = pad1 (cond st) /\
    Z.testbit (memory st' (sp st')) 2 = p (cond st) /\
    Z.testbit (memory st' (sp st')) 3 = pad2 (cond st) /\
    Z.testbit (memory st' (sp st')) 4 = ac (cond st) /\
    Z.testbit (memory st' (sp st')) 5 = pad3 (cond st) /\
    Z.testbit (memory st' (sp st')) 6 = z (cond st) /\
    Z.testbit (memory st' (sp st')) 7 = s (cond st) /\
    is_byte (memory st' (sp st')).
Proof.
  intros Hop. rewrite (Emulate_PUSH_PSW st Hop).
  eexists. eexists. split; [reflexivity|].
  split; [reflexivity|].
  cbn [sp memory set_pc push store set_memory set_sp].
  rewrite Z.eqb_refl.
  exact (pack_fields_bits (cond st)).
Qed.

Lemma PUSH_PSW_layout_witness :
  exists out st',
    Emulate (upd_cond (set_cy true) (startup [0xf5])) = (out, Return st') /\
    sp st' = uint16 (0 - 2) /\
    Z.testbit (memory st' (sp st')) 0 = true /\
    Z.testbit (memory st' (sp st')) 1 = false /\
    Z.testbit (memory st' (sp st')) 2 = false /\
    Z.testbit (memory st' (sp st')) 3 = false /\
    Z.testbit (memory st' (sp st')) 4 = false /\
    Z.testbit (memory st' (sp st')) 5 = false /\
    Z.testbit (memory st' (sp st')) 6 = false /\
    Z.testbit (memory st' (sp st')) 7 = false /\
    is_byte (memory st' (sp st')).
Proof.
  apply (PUSH_PSW_layout (upd_cond (set_cy true) (startup [0xf5]))).
  reflexivity.
Defined.

(** Bits 1, 3 and 5 are not constants.  PUSH PSW on the start-up state,
    where pad1 is clear, writes a flag byte with bit 1 = 0; and after
    LXI SP,0x0005 and POP PSW of the byte 0xff, PUSH PSW writes a flag
    byte with bits 3 and 5 = 1. *)
Lemma PUSH_PSW_reserved_bits_vary :
  match snd (Emulate (startup [0xf5])) with
  | Return st' => Z.testbit (memory st' (sp st')) 1 = false
  | Exit _ _ => False
  end /\
  match snd (run 3 (startup [0x31; 0x05; 0x00; 0xf1; 0xf5; 0xff; 0x00])) with
  | Return st' =>
      Z.testbit (memory st' (sp st')) 3 = true /\
      Z.testbit (memory st' (sp st')) 5 = true
  | Exit _ _ => False
  end.
Proof.
  vm_compute. repeat split.
Qed.

(** POP PSW loads the three padding bits from bits 1, 3 and 5 of the byte
    it pops, so a later PUSH PSW writes them back as they came. *)
Lemma POP_PSW_pads (st : State) :
  memory st (pc st) = 0xf1 ->
  exists out st',
    Emulate st = (out, Return st') /\
    pad1 (cond st') = (Z.land (memory st (sp st)) 0x02 =? 0x02) /\
    pad2 (cond st') = (Z.land (memory st (sp st)) 0x08 =? 0x08) /\
    pad3 (cond st') = (Z.land (memory st (sp st)) 0x20 =? 0x20).
Proof.
  intros Hop. unfold Emulate. rewrite Hop.
  eexists. eexists. split; [reflexivity|]. repeat split.
Qed.

(** Every other instruction leaves the padding bits alone. *)
Lemma Emulate_switch_pads (opc : Z) (st : State) :
  opc <> 0xf1 ->
  let st' := state_of (snd (Emulate_switch opc st)) in
  pad1 (cond st') = pad1 (cond st) /\
  pad2 (cond st') = pad2 (cond st) /\
  pad3 (cond st') = pad3 (cond st).
Proof.
  intros Hne. cbv zeta.
  opcode_cases opc; try (exfalso; apply Hne; reflexivity);
    run_switch; split_ifs; repeat split.
Qed.

(** PUSH PSW then POP PSW as the next instruction executed: the
    accumulator, all eight condition fields and the stack pointer are as
    before. *)
Lemma unpack_pack_fields (f : Conditions) :
  unpack_fields (fst (pack_fields (ValueOf f) 0 0x01)) = f.
Proof.
  destruct f as [[] [] [] [] [] [] [] []]; reflexivity.
Qed.

Lemma Emulate_POP_PSW (st : State) :
  memory st (pc st) = 0xf1 ->
  exists st',
    Emulate st = ([trace_line st], Return st') /\
    a st' = memory st (uint16 (sp st + 1)) /\
    cond st' = unpack_fields (memory st (sp st)) /\
    sp st' = uint16 (sp st + 2).
Proof.
  intros Hop. unfold Emulate, trace_line. rewrite Hop.
  eexists. split; [reflexivity|]. repeat split.
Qed.

Lemma PUSH_POP_PSW_restores (st : State) :
  wf st ->
  memory st (pc st) = 0xf5 ->
  memory (state_of (snd (Emulate st))) (pc (state_of (snd (Emulate st)))) = 0xf1 ->
  exists out st2,
    run 2 st = (out, Return st2) /\
    a st2 = a st /\ cond st2 = cond st /\ sp st2 = sp st.
Proof.
  intros Hwf Hpush Hpop.
  cbn [run]. rewrite (Emulate_PUSH_PSW st Hpush) in *.
  cbn [snd state_of] in Hpop.
  destruct (Emulate_POP_PSW _ Hpop) as (st2 & Hrun & Ha & Hc & Hsp).
  rewrite Hrun.
  cbn [sp memory set_pc] in Ha, Hc, Hsp.
  destruct (push_stack (a st) (fst (pack_fields (ValueOf (cond st)) 0 0x01)) st
              (wf_sp st Hwf)) as (_ & Hsp2 & Hl & Hh).
  rewrite Hh in Ha. rewrite Hl, unpack_pack_fields in Hc. rewrite Hsp2 in Hsp.
  eexists. exists st2. split; [reflexivity|]. auto.
Qed.

(** ** The printed lines determine the numbers printed *)

Lemma digit_value_digit (n : Z) : 0 <= n < 16 -> digit_value (digit n) = n.
Proof.
  intros H.
  destruct n as [|q|q]; [reflexivity | | lia].
  do 4 (try destruct q as [q|q|]); try lia; reflexivity.
Qed.

Lemma read_digits_fixed (base : Z) (width : nat) (v acc : Z) :
  1 < base <= 16 ->
  read_digits base (digits_fixed base width v) acc =
    acc * base ^ Z.of_nat width + v mod base ^ Z.of_nat width.
Proof.
  intros Hb. revert acc.
  induction width as [|w IH]; intros acc.
  - cbn. rewrite Z.mod_1_r. lia.
  - cbn [digits_fixed read_digits]. rewrite IH.
    assert (Hpow : 0 < base ^ Z.of_nat w) by (apply Z.pow_pos_nonneg; lia).
    rewrite digit_value_digit
      by (pose proof (Z.mod_pos_bound (v / base ^ Z.of_nat w) base); lia).
    rewrite Nat2Z.inj_succ, Z.pow_succ_r by lia.
    rewrite (Z.mul_comm base (base ^ Z.of_nat w)).
    rewrite Z.rem_mul_r by lia. lia.
Qed.

Lemma fmt06d_reads_back (v : Z) : is_word v -> read_digits 10 (fmt06d v) 0 = v.
Proof.
  unfold is_word, fmt06d. intros H.
  rewrite read_digits_fixed by lia.
  change (10 ^ Z.of_nat 6) with 1000000. rewrite Z.mod_small by lia. lia.
Qed.

Lemma fmt02x_reads_back (v : Z) : is_byte v -> read_digits 16 (fmt02x v) 0 = v.
Proof.
  unfold is_byte, fmt02x. intros H.
  rewrite read_digits_fixed by lia.
  change (16 ^ Z.of_nat 2) with 256. rewrite Z.mod_small by lia. lia.
Qed.

(** * Further properties of the engine *)

(** ** The driver loop *)

(** X1. Started on an image of bytes, the loop only ever holds well-formed
    states: every register and memory cell is a byte, the stack pointer
    and the program counter are 16-bit words. *)
Theorem reachable_states_well_formed (image : list Z) (st : State) :
  Forall is_byte image -> Reachable image st -> wf st.
Proof.
  intros Himg Hr. exact (Reachable_wf image st Himg Hr).
Qed.

Lemma reachable_states_well_formed_witness :
  wf (set_pc 1 (doZSPFlags 1 (set_a 1 (startup [0x3c; 0xfb])))).
Proof.
  apply (reachable_states_well_formed [0x3c; 0xfb]).
  - repeat constructor; unfold is_byte; lia.
  - apply (Reachable_step _ (startup [0x3c; 0xfb])
             [trace_line (startup [0x3c; 0xfb])]).
    + apply Reachable_startup.
    + reflexivity.
Defined.

(** A call that ends the process does so in HLT with status 0 or in the
    unimplemented fault with status 1, and leaves the state alone. *)
Lemma Emulate_switch_exit (opc : Z) (st : State) (out : list string)
      (code : Z) (st' : State) :
  Emulate_switch opc st = (out, Exit code st') ->
  st' = st /\
  ((code = 0 /\ opc = 0x76) \/ (code = 1 /\ has_semantics opc = false)).
Proof.
  intros H.
  opcode_cases opc;
    cbv beta iota zeta delta
      [Emulate_switch ret unimplemented pop pack_fields ValueOf] in H;
    try discriminate H;
    injection H as _ <- <-;
    (split; [reflexivity|]);
    first [left; split; reflexivity | right; split; reflexivity].
Qed.

Lemma Emulate_exit (st : State) (out : list string) (code : Z) (st' : State) :
  Emulate st = (out, Exit code st') ->
  st' = st /\
  ((code = 0 /\ memory st (pc st) = 0x76) \/
   (code = 1 /\ has_semantics (memory st (pc st)) = false)).
Proof.
  unfold Emulate. intros H.
  destruct (Emulate_switch (memory st (pc st)) st) as [o [s1|k s1]] eqn:Hs;
    [discriminate H|].
  injection H as _ <- <-.
  exact (Emulate_switch_exit _ _ _ _ _ Hs).
Qed.

Lemma run_from_reachable (image : list Z) (fuel : nat) (st : State) :
  Reachable image st ->
  match snd (run fuel st) with
  | Return st' => Reachable image st'
  | Exit code st' =>
      Reachable image st' /\
      ((code = 0 /\ memory st' (pc st') = 0x76) \/
       (code = 1 /\ has_semantics (memory st' (pc st')) = false))
  end.
Proof.
  revert st. induction fuel as [|fuel IH]; intros st Hr; cbn [run snd].
  - exact Hr.
  - destruct (Emulate st) as [out [st1|code st1]] eqn:Hstep.
    + pose proof (IH st1 (Reachable_step image st out st1 Hr Hstep)) as Hn.
      destruct (run fuel st1) as [out' r]. exact Hn.
    + cbn [snd]. destruct (Emulate_exit st out code st1 Hstep) as [-> Hc].
      split; assumption.
Qed.

(** X2. Started on a non-empty image (an empty one never reaches the
    loop: [main] rejects it first), however many instructions the loop
    runs, it can stop in two ways only: at a HLT opcode with exit status
    0, or at an opcode without semantics with exit status 1.  In both
    cases the state at the exit is the state the loop had reached, with
    the program counter still on that opcode; while the loop has not
    stopped its state is a reachable one. *)
Theorem loop_stops_at_HLT_or_fault (image : list Z) (fuel : nat) :
  image <> [] ->
  match snd (run fuel (startup image)) with
  | Return st' => Reachable image st'
  | Exit code st' =>
      Reachable image st' /\
      ((code = 0 /\ memory st' (pc st') = 0x76) \/
       (code = 1 /\ has_semantics (memory st' (pc st')) = false))
  end.
Proof.
  intros _. apply run_from_reachable. apply Reachable_startup.
Qed.

Lemma loop_stops_at_HLT_or_fault_witness :
  match snd (run 5 (startup [0x3c; 0x3c; 0x76])) with
  | Return st' => Reachable [0x3c; 0x3c; 0x76] st'
  | Exit code st' =>
      Reachable [0x3c; 0x3c; 0x76] st' /\
      ((code = 0 /\ memory st' (pc st') = 0x76) \/
       (code = 1 /\ has_semantics (memory st' (pc st')) = false))
  end.
Proof.
  apply (loop_stops_at_HLT_or_fault [0x3c; 0x3c; 0x76] 5).
  discriminate.
Defined.

(** X3. A call of [Emulate] returns to the loop exactly when the opcode
    under the program counter has a case with semantics other than HLT. *)
Theorem Emulate_returns_iff (st : State) :
  (exists out st', Emulate st = (out, Return st')) <->
  has_semantics (memory st (pc st)) = true /\ memory st (pc st) <> 0x76.
Proof.
  split.
  - intros (out & st' & H).
    destruct (has_semantics (memory st (pc st))) eqn:Hs.
    + split; [reflexivity|]. intros Hop.
      unfold Emulate in H. rewrite Hop in H. discriminate H.
    + rewrite (unimplemented_switch_fault st Hs) in H. discriminate H.
  - intros [Hs Hne]. unfold Emulate.
    destruct (Emulate_switch_implemented _ st Hs) as [[st' H]|H].
    + rewrite H. eexists. eexists. reflexivity.
    + destruct (Emulate_switch_exit _ _ _ _ _ H) as [_ [[_ Hop]|[Hone _]]];
        [contradiction | discriminate Hone].
Qed.

Lemma Emulate_returns_iff_witness :
  (exists out st', Emulate (startup [0x3c]) = (out, Return st')) <->
  has_semantics (memory (startup [0x3c]) (pc (startup [0x3c]))) = true /\
  memory (startup [0x3c]) (pc (startup [0x3c])) <> 0x76.
Proof.
  exact (Emulate_returns_iff (startup [0x3c])).
Defined.

(** ** Helpers of the processor state *)

(** X4. [parity] sets the P flag exactly when the low byte of its argument
    has an even number of one bits, and changes nothing else: not the
    other condition bits, not a register, not memory. *)
Theorem parity_even_ones (x : Z) (st : State) :
  p (cond (parity x st)) = Nat.even (ones_count (x mod 256)) /\
  set_cond (set_p (p (cond st)) (cond (parity x st))) (parity x st) = st.
Proof.
  split; [apply parity_p|].
  destruct st as [? ? ? ? ? ? ? ? ? ? [? ? ? ? ? ? ? ?] ?]. reflexivity.
Qed.

(** X5. In a well-formed state [getAddr] is the little-endian word after
    the opcode: the byte at pc+1 plus 256 times the byte at pc+2, with
    both addresses wrapping at 0xFFFF; it is a 16-bit value. *)
Theorem getAddr_little_endian (st : State) :
  wf st ->
  getAddr st =
    memory st ((pc st + 1) mod 65536) + 256 * memory st ((pc st + 2) mod 65536) /\
  0 <= getAddr st < 65536.
Proof.
  intros Hwf. split.
  - exact (getAddr_address_operand st Hwf).
  - exact (is_word_getAddr st Hwf).
Qed.

Lemma getAddr_little_endian_witness :
  getAddr (set_pc 0xffff (startup [0x34; 0x12])) =
    memory (set_pc 0xffff (startup [0x34; 0x12])) ((0xffff + 1) mod 65536) +
    256 * memory (set_pc 0xffff (startup [0x34; 0x12])) ((0xffff + 2) mod 65536) /\
  0 <= getAddr (set_pc 0xffff (startup [0x34; 0x12])) < 65536.
Proof.
  apply (getAddr_little_endian (set_pc 0xffff (startup [0x34; 0x12]))).
  apply wf_set_pc; [unfold is_word; lia|].
  apply wf_startup. repeat constructor; unfold is_byte; lia.
Defined.

Lemma getPair_sum (st : State) (rp : RegPair) :
  wf st ->
  getPair rp st = 256 * pair_high rp st + pair_low rp st.
Proof.
  intros Hwf.
  assert (Hh : is_byte (pair_high rp st)) by (destruct rp; cbn; auto with wf).
  assert (Hl : is_byte (pair_low rp st)) by (destruct rp; cbn; auto with wf).
  assert (Heq : getPair rp st =
                Z.lor (uint16 (Z.shiftl (pair_high rp st) 8)) (pair_low rp st))
    by (destruct rp; reflexivity).
  unfold is_byte in Hh, Hl. rewrite Heq.
  rewrite uint16_small
    by (rewrite Z.shiftl_mul_pow2 by lia; change (2 ^ 8) with 256; lia).
  rewrite lor_high_low by exact Hl. lia.
Qed.

Lemma is_word_getPair (st : State) (rp : RegPair) :
  wf st -> is_word (getPair rp st).
Proof.
  intros Hwf. rewrite (getPair_sum st rp Hwf).
  assert (Hh : is_byte (pair_high rp st)) by (destruct rp; cbn; auto with wf).
  assert (Hl : is_byte (pair_low rp st)) by (destruct rp; cbn; auto with wf).
  unfold is_byte in *. unfold is_word. lia.
Qed.

(** X6. In a well-formed state [getBC], [getDE] and [getHL] compose the
    pair with the first register as bits 15..8 and the second as bits
    7..0: the value is 256 times the high register plus the low one. *)
Theorem getPair_composes (st : State) (rp : RegPair) :
  wf st ->
  getPair rp st = 256 * pair_high rp st + pair_low rp st /\
  0 <= getPair rp st < 65536.
Proof.
  intros Hwf. split.
  - exact (getPair_sum st rp Hwf).
  - exact (is_word_getPair st rp Hwf).
Qed.

Lemma getPair_composes_witness :
  getPair PairD (setDE 0x1234 new_State) =
    256 * pair_high PairD (setDE 0x1234 new_State) +
    pair_low PairD (setDE 0x1234 new_State) /\
  0 <= getPair PairD (setDE 0x1234 new_State) < 65536.
Proof.
  apply (getPair_composes (setDE 0x1234 new_State) PairD).
  apply wf_setDE, wf_new_State.
Defined.

(** ** What an instruction leaves alone *)

Lemma Emulate_state_of (st : State) :
  state_of (snd (Emulate st)) =
    match snd (Emulate_switch (memory st (pc st)) st) with
    | Return st' => set_pc (uint16 (pc st' + 1)) st'
    | Exit _ st' => st'
    end.
Proof.
  unfold Emulate.
  destruct (Emulate_switch (memory st (pc st)) st) as [out [st'|code st']];
    reflexivity.
Qed.

Lemma Emulate_switch_memory (opc : Z) (st : State) :
  listed opc writes_memory = false ->
  memory (state_of (snd (Emulate_switch opc st))) = memory st.
Proof.
  intros H.
  opcode_cases opc; try (vm_compute in H; discriminate H);
    run_switch; split_ifs; reflexivity.
Qed.

(** X7. Only the storing instructions touch memory: a call of [Emulate] on
    any opcode outside STAX, SHLD, STA, INR M, DCR M, MVI M, MOV M,r, PUSH
    (and 0x13, whose case stores like STAX D) leaves all 65536 cells as
    they were, whether it returns or exits. *)
Theorem memory_changed_only_by_stores (st : State) :
  listed (memory st (pc st)) writes_memory = false ->
  memory (state_of (snd (Emulate st))) = memory st.
Proof.
  intros H. rewrite Emulate_state_of.
  pose proof (Emulate_switch_memory _ st H) as Hm.
  destruct (snd (Emulate_switch (memory st (pc st)) st)); exact Hm.
Qed.

Lemma memory_changed_only_by_stores_witness :
  memory (state_of (snd (Emulate (startup [0xc1])))) = memory (startup [0xc1]).
Proof.
  apply (memory_changed_only_by_stores (startup [0xc1])).
  reflexivity.
Defined.

Lemma Emulate_switch_sp (opc : Z) (st : State) :
  listed opc writes_sp = false ->
  sp (state_of (snd (Emulate_switch opc st))) = sp st.
Proof.
  intros H.
  opcode_cases opc; try (vm_compute in H; discriminate H);
    run_switch; split_ifs; reflexivity.
Qed.

(** X8. Only LXI SP, INX SP, DCX SP, PUSH and POP move the stack
    pointer: a call of [Emulate] on any other opcode leaves it as it
    was. *)
Theorem sp_changed_only_by_stack_instructions (st : State) :
  listed (memory st (pc st)) writes_sp = false ->
  sp (state_of (snd (Emulate st))) = sp st.
Proof.
  intros H. rewrite Emulate_state_of.
  pose proof (Emulate_switch_sp _ st H) as Hm.
  destruct (snd (Emulate_switch (memory st (pc st)) st)); exact Hm.
Qed.

Lemma sp_changed_only_by_stack_instructions_witness :
  sp (state_of (snd (Emulate (startup [0x39])))) = sp (startup [0x39]).
Proof.
  apply (sp_changed_only_by_stack_instructions (startup [0x39])).
  reflexivity.
Defined.

Lemma Emulate_switch_ac (opc : Z) (st : State) :
  opc <> 0xf1 ->
  ac (cond (state_of (snd (Emulate_switch opc st)))) = ac (cond st).
Proof.
  intros Hne.
  opcode_cases opc; try (exfalso; apply Hne; reflexivity);
    run_switch; split_ifs; reflexivity.
Qed.

(** X9. The auxiliary-carry flag and the three padding bits are never
    computed: a call of [Emulate] on any opcode other than POP PSW leaves
    AC, pad1, pad2 and pad3 as they were. *)
Theorem ac_changed_only_by_POP_PSW (st : State) :
  memory st (pc st) <> 0xf1 ->
  ac (cond (state_of (snd (Emulate st)))) = ac (cond st) /\
  pad1 (cond (state_of (snd (Emulate st)))) = pad1 (cond st) /\
  pad2 (cond (state_of (snd (Emulate st)))) = pad2 (cond st) /\
  pad3 (cond (state_of (snd (Emulate st)))) = pad3 (cond st).
Proof.
  intros Hne. rewrite Emulate_state_of.
  pose proof (Emulate_switch_ac _ st Hne) as Ha.
  pose proof (Emulate_switch_pads _ st Hne) as Hp. cbv zeta in Hp.
  destruct (snd (Emulate_switch (memory st (pc st)) st));
    cbn [state_of cond set_pc] in *; split; assumption.
Qed.

Lemma ac_changed_only_by_POP_PSW_witness :
  ac (cond (state_of (snd (Emulate (startup [0xa0]))))) = ac (cond (startup [0xa0])) /\
  pad1 (cond (state_of (snd (Emulate (startup [0xa0]))))) = pad1 (cond (startup [0xa0])) /\
  pad2 (cond (state_of (snd (Emulate (startup [0xa0]))))) = pad2 (cond (startup [0xa0])) /\
  pad3 (cond (state_of (snd (Emulate (startup [0xa0]))))) = pad3 (cond (startup [0xa0])).
Proof.
  apply (ac_changed_only_by_POP_PSW (startup [0xa0])).
  vm_compute. discriminate.
Defined.

(** ** Increment and decrement *)

(** The three flags [doZSPFlags] derives from a byte. *)
Lemma doZSPFlags_flags (v : Z) (st : State) :
  is_byte v ->
  z (cond (doZSPFlags v st)) = (v =? 0) /\
  s (cond (doZSPFlags v st)) = Z.testbit v 7 /\
  p (cond (doZSPFlags v st)) = Nat.even (ones_count v) /\
  cy (cond (doZSPFlags v st)) = cy (cond st).
Proof.
  intros Hv. unfold is_byte in Hv. repeat split.
  - change (uint8 SIGN) with SIGN.
    cbn [doZSPFlags cond upd_cond set_cond parity set_p set_z set_s s].
    rewrite sign_bit, Z.mod_small by lia. reflexivity.
  - unfold doZSPFlags. cbv zeta. rewrite parity_p, Z.mod_small by lia.
    reflexivity.
Qed.

Lemma Emulate_INR (st : State) (r : Reg) :
  memory st (pc st) = INR_opcode r ->
  Emulate st =
    ([trace_line st],
     Return (set_pc (uint16 (pc st + 1))
               (doZSPFlags (uint8 (get_reg r st + 1))
                  (set_reg r (uint8 (get_reg r st + 1)) st)))).
Proof.
  intros Hop. unfold Emulate, trace_line. rewrite Hop.
  destruct r; reflexivity.
Qed.

Lemma Emulate_DCR (st : State) (r : Reg) :
  memory st (pc st) = DCR_opcode r ->
  Emulate st =
    ([trace_line st],
     Return (set_pc (uint16 (pc st + 1))
               (doZSPFlags (uint8 (get_reg r st - 1))
                  (set_reg r (uint8 (get_reg r st - 1)) st)))).
Proof.
  intros Hop. unfold Emulate, trace_line. rewrite Hop.
  destruct r; reflexivity.
Qed.

Lemma get_set_reg (r r' : Reg) (v : Z) (st : State) :
  get_reg r' (set_reg r v st) = if Z.eqb (reg_code r') (reg_code r) then v else get_reg r' st.
Proof. destruct r, r'; reflexivity. Qed.

(** X10. INR on a register adds 1 modulo 256 (0xFF becomes 0x00), sets Z,
    S and P from the new value, and leaves CY, the other registers and
    memory as they were. *)
Theorem INR_register (st : State) (r : Reg) :
  wf st ->
  memory st (pc st) = INR_opcode r ->
  exists out st',
    Emulate st = (out, Return st') /\
    get_reg r st' = (get_reg r st + 1) mod 256 /\
    z (cond st') = (get_reg r st' =? 0) /\
    s (cond st') = Z.testbit (get_reg r st') 7 /\
    p (cond st') = Nat.even (ones_count (get_reg r st')) /\
    cy (cond st') = cy (cond st) /\
    (forall r', r' <> r -> get_reg r' st' = get_reg r' st) /\
    memory st' = memory st.
Proof.
  intros Hwf Hop. rewrite (Emulate_INR st r Hop).
  eexists. eexists. split; [reflexivity|].
  assert (Hv : get_reg r
                 (set_pc (uint16 (pc st + 1))
                    (doZSPFlags (uint8 (get_reg r st + 1))
                       (set_reg r (uint8 (get_reg r st + 1)) st)))
               = uint8 (get_reg r st + 1)) by (destruct r; reflexivity).
  rewrite Hv.
  destruct (doZSPFlags_flags (uint8 (get_reg r st + 1))
              (set_reg r (uint8 (get_reg r st + 1)) st)
              (is_byte_uint8 _)) as (Hz & Hs & Hp & Hc).
  cbn [cond set_pc memory].
  repeat split; try assumption.
  - rewrite Hc. destruct r; reflexivity.
  - intros r' Hne. destruct r, r'; try reflexivity; contradiction.
  - destruct r; reflexivity.
Qed.

Lemma INR_register_witness :
  exists out st',
    Emulate (set_c 0xff (startup [0x0c])) = (out, Return st') /\
    get_reg RegC st' = (get_reg RegC (set_c 0xff (startup [0x0c])) + 1) mod 256 /\
    z (cond st') = (get_reg RegC st' =? 0) /\
    s (cond st') = Z.testbit (get_reg RegC st') 7 /\
    p (cond st') = Nat.even (ones_count (get_reg RegC st')) /\
    cy (cond st') = cy (cond (set_c 0xff (startup [0x0c]))) /\
    (forall r', r' <> RegC ->
       get_reg r' st' = get_reg r' (set_c 0xff (startup [0x0c]))) /\
    memory st' = memory (set_c 0xff (startup [0x0c])).
Proof.
  apply (INR_register (set_c 0xff (startup [0x0c])) RegC).
  - apply wf_set_c; [unfold is_byte; lia|].
    apply wf_startup. repeat constructor; unfold is_byte; lia.
  - reflexivity.
Defined.

Lemma inc_dec_byte (x : Z) : is_byte x -> uint8 (uint8 (x + 1) - 1) = x.
Proof.
  unfold is_byte, uint8. intros H.
  rewrite Zminus_mod_idemp_l.
  replace (x + 1 - 1) with x by lia. apply Z.mod_small. exact H.
Qed.

(** X11. INR of a register followed by DCR of the same register as the
    next instruction: both calls return, the register holds its original
    value again (also across the wrap from 0xFF), Z reports whether that
    value is zero, and CY and memory are untouched. *)
Theorem INR_then_DCR_restores (st : State) (r : Reg) :
  wf st ->
  memory st (pc st) = INR_opcode r ->
  memory st (uint16 (pc st + 1)) = DCR_opcode r ->
  exists out st2,
    run 2 st = (out, Return st2) /\
    get_reg r st2 = get_reg r st /\
    z (cond st2) = (get_reg r st =? 0) /\
    cy (cond st2) = cy (cond st) /\
    memory st2 = memory st /\
    pc st2 = uint16 (pc st + 2).
Proof.
  intros Hwf Hinr Hdcr.
  cbn [run]. rewrite (Emulate_INR st r Hinr).
  set (st1 := set_pc (uint16 (pc st + 1))
                (doZSPFlags (uint8 (get_reg r st + 1))
                   (set_reg r (uint8 (get_reg r st + 1)) st))).
  assert (Hm1 : memory st1 = memory st) by (destruct r; reflexivity).
  assert (Hr1 : get_reg r st1 = uint8 (get_reg r st + 1))
    by (destruct r; reflexivity).
  assert (Hop1 : memory st1 (pc st1) = DCR_opcode r)
    by (rewrite Hm1; exact Hdcr).
  rewrite (Emulate_DCR st1 r Hop1).
  eexists. eexists. split; [reflexivity|].
  rewrite Hr1, (inc_dec_byte _ (is_byte_get_reg r st Hwf)).
  destruct (doZSPFlags_flags (get_reg r st) (set_reg r (get_reg r st) st1)
              (is_byte_get_reg r st Hwf)) as (Hz & _ & _ & Hc).
  cbn [cond set_pc memory pc].
  split; [destruct r; reflexivity|].
  split; [exact Hz|].
  split; [rewrite Hc; destruct r; reflexivity|].
  split; [destruct r; reflexivity|].
  subst st1. cbn [pc set_pc].
  unfold uint16. rewrite Zplus_mod_idemp_l. f_equal. lia.
Qed.

Lemma INR_then_DCR_restores_witness :
  exists out st2,
    run 2 (set_a 0xff (startup [0x3c; 0x3d])) = (out, Return st2) /\
    get_reg RegA st2 = get_reg RegA (set_a 0xff (startup [0x3c; 0x3d])) /\
    z (cond st2) = (get_reg RegA (set_a 0xff (startup [0x3c; 0x3d])) =? 0) /\
    cy (cond st2) = cy (cond (set_a 0xff (startup [0x3c; 0x3d]))) /\
    memory st2 = memory (set_a 0xff (startup [0x3c; 0x3d])) /\
    pc st2 = uint16 (pc (set_a 0xff (startup [0x3c; 0x3d])) + 2).
Proof.
  apply (INR_then_DCR_restores (set_a 0xff (startup [0x3c; 0x3d])) RegA).
  - apply wf_set_a; [unfold is_byte; lia|].
    apply wf_startup. repeat constructor; unfold is_byte; lia.
  - reflexivity.
  - reflexivity.
Defined.

(** ** 16-bit increment and double add *)

(** X12. INX B increments the B/C pair as one 16-bit value: C goes up by
    one and the carry out of C goes into B, so the pair wraps from 0xFFFF
    to 0; no flag and no memory cell changes. *)
Theorem INX_B_increments_pair (st : State) :
  wf st ->
  memory st (pc st) = 0x03 ->
  exists out st',
    Emulate st = (out, Return st') /\
    getBC st' = (getBC st + 1) mod 65536 /\
    cond st' = cond st /\
    memory st' = memory st.
Proof.
  intros Hwf Hop.
  assert (Hstep : Emulate st =
    ([trace_line st],
     Return (set_pc (uint16 (pc st + 1))
               (if uint8 (c st + 1) =? 0
                then set_b (uint8 (b st + 1)) (set_c (uint8 (c st + 1)) st)
                else set_c (uint8 (c st + 1)) st)))).
  { unfold Emulate, trace_line. rewrite Hop. run_switch.
    cbn [c set_c]. destruct (uint8 (c st + 1) =? 0); reflexivity. }
  rewrite Hstep. eexists. eexists. split; [reflexivity|].
  pose proof (wf_b st Hwf) as Hb. pose proof (wf_c st Hwf) as Hc.
  pose proof (getPair_sum st PairB Hwf) as Hsum.
  cbn [getPair pair_high pair_low] in Hsum.
  unfold is_byte in Hb, Hc.
  destruct (Z.eqb_spec (uint8 (c st + 1)) 0) as [E0|E0].
  - split; [|split; reflexivity].
    assert (Hc255 : c st = 255).
    { unfold uint8 in E0. destruct (Z.eq_dec (c st) 255) as [|Hne]; [assumption|].
      rewrite Z.mod_small in E0 by lia. lia. }
    assert (Hwf' : wf (set_pc (uint16 (pc st + 1))
                         (set_b (uint8 (b st + 1)) (set_c (uint8 (c st + 1)) st))))
      by auto with wf.
    pose proof (getPair_sum _ PairB Hwf') as Hsum'.
    cbn [getPair pair_high pair_low b c set_pc set_b set_c] in Hsum'.
    rewrite Hsum', Hsum, E0, Hc255. unfold uint8.
    destruct (Z.eq_dec (b st) 255) as [Eb|Eb].
    + rewrite Eb. reflexivity.
    + rewrite Z.mod_small by lia. rewrite Z.mod_small by lia. lia.
  - split; [|split; reflexivity].
    assert (Hwf' : wf (set_pc (uint16 (pc st + 1)) (set_c (uint8 (c st + 1)) st)))
      by auto with wf.
    pose proof (getPair_sum _ PairB Hwf') as Hsum'.
    cbn [getPair pair_high pair_low b c set_pc set_b set_c] in Hsum'.
    rewrite Hsum', Hsum.
    assert (Hc' : c st < 255).
    { destruct (Z.eq_dec (c st) 255) as [E|E]; [|lia].
      exfalso. apply E0. rewrite E. reflexivity. }
    unfold uint8. rewrite Z.mod_small by lia. rewrite Z.mod_small by lia. lia.
Qed.

Lemma INX_B_increments_pair_witness :
  exists out st',
    Emulate (set_c 0xff (set_b 0x12 (startup [0x03]))) = (out, Return st') /\
    getBC st' = (getBC (set_c 0xff (set_b 0x12 (startup [0x03]))) + 1) mod 65536 /\
    cond st' = cond (set_c 0xff (set_b 0x12 (startup [0x03]))) /\
    memory st' = memory (set_c 0xff (set_b 0x12 (startup [0x03]))).
Proof.
  apply (INX_B_increments_pair (set_c 0xff (set_b 0x12 (startup [0x03])))).
  - apply wf_set_c; [unfold is_byte; lia|].
    apply wf_set_b; [unfold is_byte; lia|].
    apply wf_startup. repeat constructor; unfold is_byte; lia.
  - reflexivity.
Defined.

(** The test of [setCarry] on the 32-bit sum of two 16-bit values. *)
Lemma high_half_nonzero (x : Z) :
  0 <= x < 131072 ->
  negb (Z.land x 0xffff0000 =? 0) = (0xFFFF <? x).
Proof.
  intros Hx.
  destruct (Z.ltb_spec 0xFFFF x) as [Hbig|Hsmall].
  - assert (Hbit : Z.testbit (Z.land x 0xffff0000) 16 = true).
    { rewrite Z.land_spec, Z.testbit_odd, Z.shiftr_div_pow2 by lia.
      change (2 ^ 16) with 65536.
      assert (Hq : x / 65536 = 1).
      { symmetry. apply (Z.div_unique x 65536 1 (x - 65536)); lia. }
      rewrite Hq. reflexivity. }
    destruct (Z.eqb_spec (Z.land x 0xffff0000) 0) as [E|E]; [|reflexivity].
    rewrite E, Z.bits_0 in Hbit. discriminate Hbit.
  - assert (E : Z.land x 0xffff0000 = 0).
    { apply Z.bits_inj'. intros i Hi. rewrite Z.land_spec, Z.bits_0.
      destruct (Z.ltb_spec i 16) as [Hlt|Hge].
      - change 0xffff0000 with (Z.shiftl 0xffff 16).
        rewrite Z.shiftl_spec_low by assumption. apply andb_false_r.
      - replace (Z.testbit x i) with false; [reflexivity|].
        symmetry. destruct (Z.eq_dec x 0) as [->|Hne]; [apply Z.bits_0|].
        apply Z.bits_above_log2; [lia|].
        apply Z.lt_le_trans with 16; [|assumption].
        apply Z.log2_lt_pow2; [lia|]. change (2 ^ 16) with 65536. lia. }
    rewrite E. reflexivity.
Qed.

Lemma is_word_wide_value (w : Wide) (st : State) :
  wf st -> is_word (wide_value w st).
Proof.
  intros Hwf. destruct w as [rp|]; cbn [wide_value].
  - apply is_word_getPair, Hwf.
  - apply Hwf.
Qed.

(** X13. DAD (on B, D, H or SP) sets CY exactly when the 16-bit sum of
    H/L and the operand does not fit in 16 bits; it changes no other
    flag, no register outside H and L, not the stack pointer and no memory
    cell. *)
Theorem DAD_carry (st : State) (w : Wide) :
  wf st ->
  memory st (pc st) = DAD_opcode w ->
  exists out st',
    Emulate st = (out, Return st') /\
    cy (cond st') = (0xFFFF <? getHL st + wide_value w st) /\
    set_cy (cy (cond st)) (cond st') = cond st /\
    (a st', b st', c st', d st', e st') = (a st, b st, c st, d st, e st) /\
    sp st' = sp st /\
    memory st' = memory st.
Proof.
  intros Hwf Hop.
  pose proof (is_word_getPair st PairH Hwf) as Hhl.
  pose proof (is_word_wide_value w st Hwf) as Hw.
  cbn [getPair] in Hhl. unfold is_word in Hhl, Hw.
  unfold Emulate. rewrite Hop.
  destruct w as [[]|]; cbn [wide_value getPair] in *;
    (eexists; eexists; split; [reflexivity|]);
    (split; [|destruct st as [? ? ? ? ? ? ? ? ? ? [? ? ? ? ? ? ? ?] ?];
              repeat split]);
    cbn [cy cond set_pc setCarry upd_cond set_cond set_cy];
    unfold uint32;
    try replace (2 * getHL st) with (getHL st + getHL st) by lia;
    rewrite Z.mod_small by lia; apply high_half_nonzero; lia.
Qed.

Lemma DAD_carry_witness :
  exists out st',
    Emulate (set_sp 0x8000 (set_l 0x01 (set_h 0x80 (startup [0x39]))))
      = (out, Return st') /\
    cy (cond st') =
      (0xFFFF <? getHL (set_sp 0x8000 (set_l 0x01 (set_h 0x80 (startup [0x39])))) +
                 wide_value WSP
                   (set_sp 0x8000 (set_l 0x01 (set_h 0x80 (startup [0x39]))))) /\
    set_cy (cy (cond (set_sp 0x8000 (set_l 0x01 (set_h 0x80 (startup [0x39]))))))
           (cond st')
      = cond (set_sp 0x8000 (set_l 0x01 (set_h 0x80 (startup [0x39])))) /\
    (a st', b st', c st', d st', e st') =
      (a (set_sp 0x8000 (set_l 0x01 (set_h 0x80 (startup [0x39])))),
       b (set_sp 0x8000 (set_l 0x01 (set_h 0x80 (startup [0x39])))),
       c (set_sp 0x8000 (set_l 0x01 (set_h 0x80 (startup [0x39])))),
       d (set_sp 0x8000 (set_l 0x01 (set_h 0x80 (startup [0x39])))),
       e (set_sp 0x8000 (set_l 0x01 (set_h 0x80 (startup [0x39]))))) /\
    sp st' = sp (set_sp 0x8000 (set_l 0x01 (set_h 0x80 (startup [0x39])))) /\
    memory st' = memory (set_sp 0x8000 (set_l 0x01 (set_h 0x80 (startup [0x39])))).
Proof.
  apply (DAD_carry (set_sp 0x8000 (set_l 0x01 (set_h 0x80 (startup [0x39])))) WSP).
  - apply wf_set_sp; [unfold is_word; lia|].
    apply wf_set_l; [unfold is_byte; lia|].
    apply wf_set_h; [unfold is_byte; lia|].
    apply wf_startup. repeat constructor; unfold is_byte; lia.
  - reflexivity.
Defined.

(** ** Rotates *)

Lemma rotate_left_right (x : Z) :
  is_byte x ->
  let y := Z.lor (uint8 (Z.shiftl x 1)) (Z.shiftr (Z.land x 0x80) 7) in
  Z.lor (Z.shiftr y 1) (uint8 (Z.shiftl (Z.land y 0x01) 7)) = x /\
  (Z.land y 0x01 =? 0x01) = Z.testbit x 7 /\
  (Z.land x 0x80 =? 0x80) = Z.testbit x 7 /\
  is_byte y.
Proof.
  intros H. byte_cases x H; vm_compute; repeat split; discriminate.
Qed.

(** X14. RLC followed by RRC as the next instruction: both calls return
    and the accumulator holds its original value again.  After each of the
    two, CY is bit 7 of that value: the bit RLC moved out at the top and
    RRC moved out at the bottom. *)
Theorem RLC_then_RRC_restores (st : State) :
  wf st ->
  memory st (pc st) = 0x07 ->
  memory st (uint16 (pc st + 1)) = 0x0f ->
  exists out1 st1 out st2,
    Emulate st = (out1, Return st1) /\
    run 2 st = (out, Return st2) /\
    cy (cond st1) = Z.testbit (a st) 7 /\
    a st2 = a st /\
    cy (cond st2) = Z.testbit (a st) 7 /\
    memory st2 = memory st.
Proof.
  intros Hwf Hrlc Hrrc.
  destruct (rotate_left_right (a st) (wf_a st Hwf)) as (Hback & Hc2 & Hc1 & _).
  cbv zeta in Hback, Hc2.
  assert (Hstep1 : Emulate st =
    ([trace_line st],
     Return (set_pc (uint16 (pc st + 1))
               (upd_cond (set_cy (Z.land (a st) 0x80 =? 0x80))
                  (set_a (Z.lor (uint8 (Z.shiftl (a st) 1))
                                (Z.shiftr (Z.land (a st) 0x80) 7)) st))))).
  { unfold Emulate, trace_line. rewrite Hrlc. reflexivity. }
  cbn [run]. rewrite Hstep1.
  match goal with
  | |- context [Emulate ?s1] =>
      assert (Hstep2 : Emulate s1 =
        ([trace_line s1],
         Return (set_pc (uint16 (pc s1 + 1))
                   (upd_cond (set_cy (Z.land (a s1) 0x01 =? 0x01))
                      (set_a (Z.lor (Z.shiftr (a s1) 1)
                                    (uint8 (Z.shiftl (Z.land (a s1) 0x01) 7)))
                             s1)))))
        by (unfold Emulate, trace_line;
            change (memory s1 (pc s1)) with (memory st (uint16 (pc st + 1)));
            rewrite Hrrc; reflexivity);
      rewrite Hstep2
  end.
  do 4 eexists. split; [reflexivity|]. split; [reflexivity|].
  cbn [a cond cy memory set_pc upd_cond set_cond set_cy set_a].
  repeat split; assumption.
Qed.

Lemma RLC_then_RRC_restores_witness :
  exists out1 st1 out st2,
    Emulate (set_a 0x81 (startup [0x07; 0x0f])) = (out1, Return st1) /\
    run 2 (set_a 0x81 (startup [0x07; 0x0f])) = (out, Return st2) /\
    cy (cond st1) = Z.testbit (a (set_a 0x81 (startup [0x07; 0x0f]))) 7 /\
    a st2 = a (set_a 0x81 (startup [0x07; 0x0f])) /\
    cy (cond st2) = Z.testbit (a (set_a 0x81 (startup [0x07; 0x0f]))) 7 /\
    memory st2 = memory (set_a 0x81 (startup [0x07; 0x0f])).
Proof.
  apply (RLC_then_RRC_restores (set_a 0x81 (startup [0x07; 0x0f]))).
  - apply wf_set_a; [unfold is_byte; lia|].
    apply wf_startup. repeat constructor; unfold is_byte; lia.
  - reflexivity.
  - reflexivity.
Defined.

(** ** Subtraction and the carry-in forms *)

Lemma uint16_low_byte (t : Z) : uint16 t mod 256 = t mod 256.
Proof.
  unfold uint16. change 65536 with (256 * 256).
  rewrite Z.rem_mul_r by lia.
  rewrite Z.mul_comm, Z.mod_add by lia. apply Z.mod_mod. lia.
Qed.

Lemma uint16_borrow (t : Z) :
  -65280 <= t <= 255 -> (0xFF <? uint16 t) = (t <? 0).
Proof.
  unfold uint16. intros Ht.
  destruct (Z.ltb_spec t 0) as [Hneg|Hpos].
  - apply Z.ltb_lt.
    replace t with (t + 65536 + (-1) * 65536) by lia.
    rewrite Z.mod_add by lia. rewrite Z.mod_small by lia. lia.
  - apply Z.ltb_ge. rewrite Z.mod_small by lia. lia.
Qed.

Lemma is_byte_ALU_operand (o : Operand) (st : State) :
  wf st -> is_byte (ALU_operand o st).
Proof.
  intros Hwf. destruct o as [r|]; cbn [ALU_operand];
    [apply is_byte_get_reg, Hwf | apply Hwf].
Qed.

Lemma getCarry_bit (st : State) : getCarry st = Z.b2z (cy (cond st)).
Proof. unfold getCarry. destruct (cy (cond st)); reflexivity. Qed.

Lemma arith_done_facts (answer : Z) (st : State) :
  a (arith_done answer st) = answer mod 256 /\
  cy (cond (arith_done answer st)) = (0xFF <? answer) /\
  z (cond (arith_done answer st)) = (answer mod 256 =? 0) /\
  s (cond (arith_done answer st)) = Z.testbit (answer mod 256) 7 /\
  p (cond (arith_done answer st)) = Nat.even (ones_count (answer mod 256)) /\
  memory (arith_done answer st) = memory st /\
  pc (arith_done answer st) = uint16 (pc st + 1).
Proof.
  destruct (doArithFlags_flags answer st) as (Hz & Hs & Hc & Hp & _).
  unfold arith_done. cbn [a cond memory pc set_pc set_a].
  repeat split; try assumption.
  unfold ROUND. rewrite land_0xFF. unfold uint8. apply Z.mod_mod. lia.
Qed.

Lemma byte_difference_zero (x y : Z) :
  is_byte x -> is_byte y -> ((x - y) mod 256 =? 0) = (x =? y).
Proof.
  unfold is_byte. intros Hx Hy.
  destruct (Z.eqb_spec x y) as [->|Hne].
  - rewrite Z.sub_diag. reflexivity.
  - apply Z.eqb_neq. intros Hm.
    destruct (Z_lt_ge_dec x y) as [Hlt|Hge].
    + replace (x - y) with (x - y + 256 + (-1) * 256) in Hm by lia.
      rewrite Z.mod_add in Hm by lia. rewrite Z.mod_small in Hm by lia. lia.
    + rewrite Z.mod_small in Hm by lia. lia.
Qed.

Lemma Emulate_SUB (st : State) (o : Operand) :
  memory st (pc st) = SUB_opcode o ->
  Emulate st =
    ([trace_line st],
     Return (arith_done (uint16 (a st - ALU_operand o st)) st)).
Proof.
  intros Hop. unfold Emulate, trace_line, arith_done. rewrite Hop.
  destruct o as [[]|]; reflexivity.
Qed.

(** X15. SUB (on B, C, D, E, H, L, A or the cell H/L addresses) leaves the
    difference modulo 256 in the accumulator, sets CY exactly when the
    operand exceeds the accumulator (a borrow) and Z exactly when the two
    are equal; memory is unchanged. *)
Theorem SUB_difference_and_borrow (st : State) (o : Operand) :
  wf st ->
  memory st (pc st) = SUB_opcode o ->
  exists out st',
    Emulate st = (out, Return st') /\
    a st' = (a st - ALU_operand o st) mod 256 /\
    cy (cond st') = (a st <? ALU_operand o st) /\
    z (cond st') = (a st =? ALU_operand o st) /\
    memory st' = memory st.
Proof.
  intros Hwf Hop. rewrite (Emulate_SUB st o Hop).
  pose proof (wf_a st Hwf) as Ha.
  pose proof (is_byte_ALU_operand o st Hwf) as Hv.
  destruct (arith_done_facts (uint16 (a st - ALU_operand o st)) st)
    as (Hacc & Hc & Hz & _ & _ & Hm & _).
  rewrite uint16_low_byte in Hacc, Hz.
  rewrite (byte_difference_zero _ _ Ha Hv) in Hz.
  unfold is_byte in Ha, Hv.
  rewrite uint16_borrow in Hc by lia.
  eexists. eexists. split; [reflexivity|].
  repeat split; try assumption.
  rewrite Hc. destruct (Z.ltb_spec (a st - ALU_operand o st) 0);
    symmetry; [apply Z.ltb_lt | apply Z.ltb_ge]; lia.
Qed.

Lemma SUB_difference_and_borrow_witness :
  exists out st',
    Emulate (set_l 0x02 (set_a 0x10 (startup [0x96; 0x00; 0x20])))
      = (out, Return st') /\
    a st' = (a (set_l 0x02 (set_a 0x10 (startup [0x96; 0x00; 0x20]))) -
             ALU_operand OnM (set_l 0x02 (set_a 0x10 (startup [0x96; 0x00; 0x20]))))
            mod 256 /\
    cy (cond st') =
      (a (set_l 0x02 (set_a 0x10 (startup [0x96; 0x00; 0x20]))) <?
       ALU_operand OnM (set_l 0x02 (set_a 0x10 (startup [0x96; 0x00; 0x20])))) /\
    z (cond st') =
      (a (set_l 0x02 (set_a 0x10 (startup [0x96; 0x00; 0x20]))) =?
       ALU_operand OnM (set_l 0x02 (set_a 0x10 (startup [0x96; 0x00; 0x20])))) /\
    memory st' = memory (set_l 0x02 (set_a 0x10 (startup [0x96; 0x00; 0x20]))).
Proof.
  apply (SUB_difference_and_borrow
           (set_l 0x02 (set_a 0x10 (startup [0x96; 0x00; 0x20]))) OnM).
  - apply wf_set_l; [unfold is_byte; lia|].
    apply wf_set_a; [unfold is_byte; lia|].
    apply wf_startup. repeat constructor; unfold is_byte; lia.
  - reflexivity.
Defined.

Lemma Emulate_ADC (st : State) (o : Operand) :
  o <> OnReg RegA ->
  memory st (pc st) = ADC_opcode o ->
  Emulate st =
    ([trace_line st],
     Return (arith_done
               (uint16 (uint16 (a st + ALU_operand o st) + getCarry st)) st)).
Proof.
  intros Hne Hop. unfold Emulate, trace_line, arith_done. rewrite Hop.
  destruct o as [[]|]; try reflexivity. contradiction.
Qed.

Lemma Emulate_SBB (st : State) (o : Operand) :
  o <> OnReg RegA ->
  memory st (pc st) = SBB_opcode o ->
  Emulate st =
    ([trace_line st],
     Return (arith_done
               (uint16 (uint16 (a st - ALU_operand o st) - getCarry st)) st)).
Proof.
  intros Hne Hop. unfold Emulate, trace_line, arith_done. rewrite Hop.
  destruct o as [[]|]; try reflexivity. contradiction.
Qed.

(** X16. ADC on B, C, D, E, H, L or the cell H/L addresses adds the
    operand and the incoming CY (as 0 or 1) to the accumulator: the sum
    modulo 256 goes to the accumulator and CY is set exactly when the sum
    exceeds 0xFF. *)
Theorem ADC_sum_with_carry (st : State) (o : Operand) :
  wf st ->
  o <> OnReg RegA ->
  memory st (pc st) = ADC_opcode o ->
  exists out st',
    Emulate st = (out, Return st') /\
    a st' = (a st + ALU_operand o st + Z.b2z (cy (cond st))) mod 256 /\
    cy (cond st') = (0xFF <? a st + ALU_operand o st + Z.b2z (cy (cond st))).
Proof.
  intros Hwf Hne Hop. rewrite (Emulate_ADC st o Hne Hop).
  pose proof (wf_a st Hwf) as Ha.
  pose proof (is_byte_ALU_operand o st Hwf) as Hv.
  rewrite getCarry_bit.
  assert (Hb : 0 <= Z.b2z (cy (cond st)) <= 1) by (destruct (cy (cond st)); cbn; lia).
  unfold is_byte in Ha, Hv.
  rewrite (uint16_small (a st + ALU_operand o st)) by lia.
  rewrite uint16_small by lia.
  destruct (arith_done_facts (a st + ALU_operand o st + Z.b2z (cy (cond st))) st)
    as (Hacc & Hc & _).
  eexists. eexists. split; [reflexivity|]. split; assumption.
Qed.

Lemma ADC_sum_with_carry_witness :
  exists out st',
    Emulate (upd_cond (set_cy true) (set_b 0x0f (set_a 0xf0 (startup [0x88]))))
      = (out, Return st') /\
    a st' =
      (a (upd_cond (set_cy true) (set_b 0x0f (set_a 0xf0 (startup [0x88])))) +
       ALU_operand (OnReg RegB)
         (upd_cond (set_cy true) (set_b 0x0f (set_a 0xf0 (startup [0x88])))) +
       Z.b2z (cy (cond (upd_cond (set_cy true)
                          (set_b 0x0f (set_a 0xf0 (startup [0x88]))))))) mod 256 /\
    cy (cond st') =
      (0xFF <?
       a (upd_cond (set_cy true) (set_b 0x0f (set_a 0xf0 (startup [0x88])))) +
       ALU_operand (OnReg RegB)
         (upd_cond (set_cy true) (set_b 0x0f (set_a 0xf0 (startup [0x88])))) +
       Z.b2z (cy (cond (upd_cond (set_cy true)
                          (set_b 0x0f (set_a 0xf0 (startup [0x88]))))))).
Proof.
  apply (ADC_sum_with_carry
           (upd_cond (set_cy true) (set_b 0x0f (set_a 0xf0 (startup [0x88]))))
           (OnReg RegB)).
  - apply wf_upd_cond.
    apply wf_set_b; [unfold is_byte; lia|].
    apply wf_set_a; [unfold is_byte; lia|].
    apply wf_startup. repeat constructor; unfold is_byte; lia.
  - discriminate.
  - reflexivity.
Defined.

(** X17. SBB on B, C, D, E, H, L or the cell H/L addresses subtracts the
    operand and the incoming CY (as 0 or 1) from the accumulator: the
    difference modulo 256 goes to the accumulator and CY is set exactly
    when operand plus carry exceeds the accumulator. *)
Theorem SBB_difference_with_borrow (st : State) (o : Operand) :
  wf st ->
  o <> OnReg RegA ->
  memory st (pc st) = SBB_opcode o ->
  exists out st',
    Emulate st = (out, Return st') /\
    a st' = (a st - ALU_operand o st - Z.b2z (cy (cond st))) mod 256 /\
    cy (cond st') = (a st <? ALU_operand o st + Z.b2z (cy (cond st))).
Proof.
  intros Hwf Hne Hop. rewrite (Emulate_SBB st o Hne Hop).
  pose proof (wf_a st Hwf) as Ha.
  pose proof (is_byte_ALU_operand o st Hwf) as Hv.
  rewrite getCarry_bit.
  assert (Hb : 0 <= Z.b2z (cy (cond st)) <= 1) by (destruct (cy (cond st)); cbn; lia).
  unfold is_byte in Ha, Hv.
  assert (Hans : uint16 (uint16 (a st - ALU_operand o st) - Z.b2z (cy (cond st)))
                 = uint16 (a st - ALU_operand o st - Z.b2z (cy (cond st))))
    by (unfold uint16; apply Zminus_mod_idemp_l).
  rewrite Hans.
  destruct (arith_done_facts
              (uint16 (a st - ALU_operand o st - Z.b2z (cy (cond st)))) st)
    as (Hacc & Hc & _).
  rewrite uint16_low_byte in Hacc.
  rewrite uint16_borrow in Hc by lia.
  eexists. eexists. split; [reflexivity|]. split; [assumption|].
  rewrite Hc.
  destruct (Z.ltb_spec (a st - ALU_operand o st - Z.b2z (cy (cond st))) 0);
    symmetry; [apply Z.ltb_lt | apply Z.ltb_ge]; lia.
Qed.

Lemma SBB_difference_with_borrow_witness :
  exists out st',
    Emulate (upd_cond (set_cy true) (set_c 0x10 (set_a 0x10 (startup [0x99]))))
      = (out, Return st') /\
    a st' =
      (a (upd_cond (set_cy true) (set_c 0x10 (set_a 0x10 (startup [0x99])))) -
       ALU_operand (OnReg RegC)
         (upd_cond (set_cy true) (set_c 0x10 (set_a 0x10 (startup [0x99])))) -
       Z.b2z (cy (cond (upd_cond (set_cy true)
                          (set_c 0x10 (set_a 0x10 (startup [0x99]))))))) mod 256 /\
    cy (cond st') =
      (a (upd_cond (set_cy true) (set_c 0x10 (set_a 0x10 (startup [0x99])))) <?
       ALU_operand (OnReg RegC)
         (upd_cond (set_cy true) (set_c 0x10 (set_a 0x10 (startup [0x99])))) +
       Z.b2z (cy (cond (upd_cond (set_cy true)
                          (set_c 0x10 (set_a 0x10 (startup [0x99]))))))).
Proof.
  apply (SBB_difference_with_borrow
           (upd_cond (set_cy true) (set_c 0x10 (set_a 0x10 (startup [0x99]))))
           (OnReg RegC)).
  - apply wf_upd_cond.
    apply wf_set_c; [unfold is_byte; lia|].
    apply wf_set_a; [unfold is_byte; lia|].
    apply wf_startup. repeat constructor; unfold is_byte; lia.
  - discriminate.
  - reflexivity.
Defined.

(** ** ADD with the memory and the immediate operand *)

(** X18. ADD M adds the cell H/L addresses and ADI adds the byte after the
    opcode: in both the sum modulo 256 goes to the accumulator and CY is
    set exactly when the sum exceeds 0xFF.  ADD M is one byte long, ADI
    two. *)
Theorem ADD_M_and_ADI (st : State) (immediate : bool) :
  wf st ->
  memory st (pc st) = (if immediate then 0xc6 else 0x86) ->
  exists out st',
    Emulate st = (out, Return st') /\
    a st' =
      (a st + (if immediate then memory st (uint16 (pc st + 1))
               else memory st (getHL st))) mod 256 /\
    cy (cond st') =
      (0xFF <? a st + (if immediate then memory st (uint16 (pc st + 1))
                       else memory st (getHL st))) /\
    pc st' = uint16 (pc st + (if immediate then 2 else 1)) /\
    memory st' = memory st.
Proof.
  intros Hwf Hop.
  pose proof (wf_a st Hwf) as Ha. unfold is_byte in Ha.
  destruct immediate.
  - pose proof (wf_memory st Hwf (uint16 (pc st + 1))) as Hv. unfold is_byte in Hv.
    assert (Hstep : Emulate st =
      ([trace_line st],
       Return (arith_done (uint16 (a st + memory st (uint16 (pc st + 1))))
                 (set_pc (uint16 (pc st + 1)) st)))).
    { unfold Emulate, trace_line, arith_done. rewrite Hop. reflexivity. }
    rewrite Hstep. rewrite uint16_small by lia.
    destruct (arith_done_facts (a st + memory st (uint16 (pc st + 1)))
                (set_pc (uint16 (pc st + 1)) st)) as (Hacc & Hc & _ & _ & _ & Hm & Hpc).
    eexists. eexists. split; [reflexivity|].
    repeat split; try assumption.
    rewrite Hpc. cbn [pc set_pc]. unfold uint16.
    rewrite Zplus_mod_idemp_l. f_equal. lia.
  - pose proof (wf_memory st Hwf (getHL st)) as Hv. unfold is_byte in Hv.
    assert (Hstep : Emulate st =
      ([trace_line st],
       Return (arith_done (uint16 (a st + memory st (getHL st))) st))).
    { unfold Emulate, trace_line, arith_done. rewrite Hop. reflexivity. }
    rewrite Hstep. rewrite uint16_small by lia.
    destruct (arith_done_facts (a st + memory st (getHL st)) st)
      as (Hacc & Hc & _ & _ & _ & Hm & Hpc).
    eexists. eexists. split; [reflexivity|].
    repeat split; assumption.
Qed.

Lemma ADD_M_and_ADI_witness :
  exists out st',
    Emulate (set_a 0xf0 (startup [0xc6; 0x20])) = (out, Return st') /\
    a st' =
      (a (set_a 0xf0 (startup [0xc6; 0x20])) +
       memory (set_a 0xf0 (startup [0xc6; 0x20]))
              (uint16 (pc (set_a 0xf0 (startup [0xc6; 0x20])) + 1))) mod 256 /\
    cy (cond st') =
      (0xFF <? a (set_a 0xf0 (startup [0xc6; 0x20])) +
               memory (set_a 0xf0 (startup [0xc6; 0x20]))
                      (uint16 (pc (set_a 0xf0 (startup [0xc6; 0x20])) + 1))) /\
    pc st' = uint16 (pc (set_a 0xf0 (startup [0xc6; 0x20])) + 2) /\
    memory st' = memory (set_a 0xf0 (startup [0xc6; 0x20])).
Proof.
  apply (ADD_M_and_ADI (set_a 0xf0 (startup [0xc6; 0x20])) true).
  - apply wf_set_a; [unfold is_byte; lia|].
    apply wf_startup. repeat constructor; unfold is_byte; lia.
  - reflexivity.
Defined.

(** ** Logic operations on a register *)

Lemma doLogicFlags_flags (st : State) :
  is_byte (a st) ->
  a (doLogicFlags st) = a st /\
  z (cond (doLogicFlags st)) = (a st =? 0) /\
  s (cond (doLogicFlags st)) = Z.testbit (a st) 7 /\
  p (cond (doLogicFlags st)) = Nat.even (ones_count (a st)).
Proof.
  intros Ha. unfold is_byte in Ha. repeat split.
  - change (uint8 SIGN) with SIGN.
    cbn [doLogicFlags cond a upd_cond set_cond parity set_p set_z set_s set_cy s].
    rewrite sign_bit, Z.mod_small by lia. reflexivity.
  - unfold doLogicFlags. cbv zeta. rewrite parity_p.
    cbn [a upd_cond set_cond]. rewrite Z.mod_small by lia. reflexivity.
Qed.

Lemma is_byte_logic_result (op : LogicOp) (x y : Z) :
  is_byte x -> is_byte y -> is_byte (logic_result op x y).
Proof. destruct op; cbn [logic_result]; auto with wf. Qed.

(** X19. ANA, XRA and ORA on a register leave the bitwise AND, XOR or OR
    of accumulator and register in the accumulator and set Z, S and P
    from that result: Z when it is zero, S from its bit 7, P when it has
    an even number of one bits.  Memory and the other registers stay. *)
Theorem logic_op_result (st : State) (op : LogicOp) (r : Reg) :
  wf st ->
  memory st (pc st) = logic_opcode op (OnReg r) ->
  exists out st',
    Emulate st = (out, Return st') /\
    a st' = logic_result op (a st) (get_reg r st) /\
    z (cond st') = (a st' =? 0) /\
    s (cond st') = Z.testbit (a st') 7 /\
    p (cond st') = Nat.even (ones_count (a st')) /\
    (forall r', r' <> RegA -> get_reg r' st' = get_reg r' st) /\
    memory st' = memory st.
Proof.
  intros Hwf Hop.
  assert (Hstep : Emulate st =
    ([trace_line st],
     Return (set_pc (uint16 (pc st + 1))
               (doLogicFlags (set_a (logic_result op (a st) (get_reg r st)) st))))).
  { unfold Emulate, trace_line. rewrite Hop. destruct op, r; reflexivity. }
  rewrite Hstep.
  assert (Hres : is_byte (logic_result op (a st) (get_reg r st)))
    by (apply is_byte_logic_result; [apply Hwf | apply is_byte_get_reg, Hwf]).
  destruct (doLogicFlags_flags (set_a (logic_result op (a st) (get_reg r st)) st) Hres)
    as (Ha & Hz & Hs & Hp).
  cbn [a set_a] in Ha, Hz, Hs, Hp.
  eexists. eexists. split; [reflexivity|].
  cbn [a cond set_pc memory]. rewrite Ha.
  repeat split; try assumption.
  intros r' Hne. destruct r'; try reflexivity. contradiction.
Qed.

Lemma logic_op_result_witness :
  exists out st',
    Emulate (set_a 0x5a (startup [0xaf])) = (out, Return st') /\
    a st' = logic_result XRA (a (set_a 0x5a (startup [0xaf])))
                         (get_reg RegA (set_a 0x5a (startup [0xaf]))) /\
    z (cond st') = (a st' =? 0) /\
    s (cond st') = Z.testbit (a st') 7 /\
    p (cond st') = Nat.even (ones_count (a st')) /\
    (forall r', r' <> RegA ->
       get_reg r' st' = get_reg r' (set_a 0x5a (startup [0xaf]))) /\
    memory st' = memory (set_a 0x5a (startup [0xaf])).
Proof.
  apply (logic_op_result (set_a 0x5a (startup [0xaf])) XRA RegA).
  - apply wf_set_a; [unfold is_byte; lia|].
    apply wf_startup. repeat constructor; unfold is_byte; lia.
  - reflexivity.
Defined.

(** ** Immediate loads *)

Lemma uint16_add_add (x j k : Z) :
  uint16 (uint16 (x + j) + k) = uint16 (x + (j + k)).
Proof.
  unfold uint16. rewrite Zplus_mod_idemp_l. f_equal. lia.
Qed.

(** X20. LXI (on B, D, H or SP) loads the 16-bit operand, low byte first,
    into the pair or the stack pointer and leaves the program counter 3
    past the opcode; flags and memory are unchanged. *)
Theorem LXI_loads_operand (st : State) (w : Wide) :
  wf st ->
  memory st (pc st) = LXI_opcode w ->
  exists out st',
    Emulate st = (out, Return st') /\
    wide_value w st' = address_operand st /\
    pc st' = uint16 (pc st + 3) /\
    cond st' = cond st /\
    memory st' = memory st.
Proof.
  intros Hwf Hop.
  assert (Hpc3 : uint16 (uint16 (uint16 (pc st + 1) + 1) + 1) = uint16 (pc st + 3))
    by (rewrite !uint16_add_add; reflexivity).
  assert (Hpc3' : uint16 (uint16 (pc st + 2) + 1) = uint16 (pc st + 3))
    by (rewrite uint16_add_add; reflexivity).
  assert (Hpc2 : uint16 (uint16 (pc st + 1) + 1) = uint16 (pc st + 2))
    by (rewrite uint16_add_add; reflexivity).
  pose proof (wf_memory st Hwf (uint16 (pc st + 1))) as Hlo.
  pose proof (wf_memory st Hwf (uint16 (pc st + 2))) as Hhi.
  unfold Emulate. rewrite Hop.
  destruct w as [[]|]; (eexists; eexists; split; [reflexivity|]);
    cbn [wide_value pc cond memory set_pc set_sp set_b set_c set_d set_e set_h set_l];
    (split; [|split; [first [exact Hpc3 | exact Hpc3']|split; reflexivity]]).
  1-3: match goal with
       | |- getPair ?rp ?s1 = _ =>
           assert (Hwf1 : wf s1) by auto 8 with wf;
           rewrite (getPair_sum s1 rp Hwf1)
       end;
       cbn [pair_high pair_low b c d e h l pc memory
            set_pc set_b set_c set_d set_e set_h set_l];
       rewrite Hpc2; unfold address_operand; lia.
  exact (getAddr_address_operand st Hwf).
Qed.

Lemma LXI_loads_operand_witness :
  exists out st',
    Emulate (startup [0x21; 0x34; 0x12]) = (out, Return st') /\
    wide_value (WPair PairH) st' = address_operand (startup [0x21; 0x34; 0x12]) /\
    pc st' = uint16 (pc (startup [0x21; 0x34; 0x12]) + 3) /\
    cond st' = cond (startup [0x21; 0x34; 0x12]) /\
    memory st' = memory (startup [0x21; 0x34; 0x12]).
Proof.
  apply (LXI_loads_operand (startup [0x21; 0x34; 0x12]) (WPair PairH)).
  - apply wf_startup. repeat constructor; unfold is_byte; lia.
  - reflexivity.
Defined.

(** X21. MVI on B, C, D, E or H copies the byte after the opcode into the
    register and leaves the program counter 2 past the opcode, with flags,
    memory and the other registers unchanged.  MVI L (0x2e) and MVI A
    (0x3e) have no case: they end in the unimplemented fault. *)
Theorem MVI_register (st : State) (r : Reg) :
  memory st (pc st) = MVI_opcode r ->
  match r with
  | RegL | RegA => snd (Emulate st) = Exit 1 st
  | _ =>
      exists out st',
        Emulate st = (out, Return st') /\
        get_reg r st' = memory st (uint16 (pc st + 1)) /\
        pc st' = uint16 (pc st + 2) /\
        cond st' = cond st /\
        memory st' = memory st /\
        (forall r', r' <> r -> get_reg r' st' = get_reg r' st)
  end.
Proof.
  intros Hop.
  destruct r;
    try (rewrite unimplemented_switch_fault by (rewrite Hop; reflexivity);
         reflexivity);
    unfold Emulate; rewrite Hop;
    (eexists; eexists; split; [reflexivity|]);
    cbn [get_reg pc cond memory b c d e h set_pc set_b set_c set_d set_e set_h];
    (split; [reflexivity|]);
    (split; [apply uint16_add_add|]);
    (split; [reflexivity|]); (split; [reflexivity|]);
    intros r' Hne; destruct r'; try reflexivity; contradiction.
Qed.

Lemma MVI_register_witness :
  exists out st',
    Emulate (startup [0x16; 0x42]) = (out, Return st') /\
    get_reg RegD st' =
      memory (startup [0x16; 0x42]) (uint16 (pc (startup [0x16; 0x42]) + 1)) /\
    pc st' = uint16 (pc (startup [0x16; 0x42]) + 2) /\
    cond st' = cond (startup [0x16; 0x42]) /\
    memory st' = memory (startup [0x16; 0x42]) /\
    (forall r', r' <> RegD -> get_reg r' st' = get_reg r' (startup [0x16; 0x42])).
Proof.
  exact (MVI_register (startup [0x16; 0x42]) RegD eq_refl).
Defined.

(** ** Direct stores *)

Lemma uint16_succ_neq (x : Z) : is_word x -> uint16 (x + 1) <> x.
Proof.
  unfold is_word, uint16. intros Hx Heq.
  destruct (Z.eq_dec x 65535) as [E|E].
  - rewrite E in Heq. vm_compute in Heq. discriminate Heq.
  - rewrite Z.mod_small in Heq by lia. lia.
Qed.

(** X22. SHLD writes L to the cell at the operand address and H to the
    next cell (address 0 after 0xFFFF), leaves every other cell, the
    registers and the flags as they were, and ends 3 past the opcode. *)
Theorem SHLD_stores_pair (st : State) :
  wf st ->
  memory st (pc st) = 0x22 ->
  exists out st',
    Emulate st = (out, Return st') /\
    memory st' (address_operand st) = l st /\
    memory st' (uint16 (address_operand st + 1)) = h st /\
    (forall x,
       x <> address_operand st -> x <> uint16 (address_operand st + 1) ->
       memory st' x = memory st x) /\
    (h st', l st', cond st', sp st') = (h st, l st, cond st, sp st) /\
    pc st' = uint16 (pc st + 3).
Proof.
  intros Hwf Hop.
  pose proof (getAddr_address_operand st Hwf) as Hadr.
  pose proof (is_word_getAddr st Hwf) as Hw. rewrite Hadr in Hw.
  pose proof (uint16_succ_neq _ Hw) as Hne.
  unfold Emulate. rewrite Hop. run_switch. rewrite Hadr.
  eexists. eexists. split; [reflexivity|].
  cbn [memory h l cond sp pc store set_memory set_pc].
  repeat split.
  - apply Z.neq_sym, Z.eqb_neq in Hne. rewrite Hne, Z.eqb_refl. reflexivity.
  - rewrite Z.eqb_refl. reflexivity.
  - intros x Hx1 Hx2. apply Z.eqb_neq in Hx1, Hx2. rewrite Hx1, Hx2. reflexivity.
  - apply uint16_add_add.
Qed.

Lemma SHLD_stores_pair_witness :
  exists out st',
    Emulate (set_l 0x34 (set_h 0x12 (startup [0x22; 0xff; 0xff]))) = (out, Return st') /\
    memory st' (address_operand (set_l 0x34 (set_h 0x12 (startup [0x22; 0xff; 0xff]))))
      = l (set_l 0x34 (set_h 0x12 (startup [0x22; 0xff; 0xff]))) /\
    memory st'
      (uint16 (address_operand (set_l 0x34 (set_h 0x12 (startup [0x22; 0xff; 0xff]))) + 1))
      = h (set_l 0x34 (set_h 0x12 (startup [0x22; 0xff; 0xff]))) /\
    (forall x,
       x <> address_operand (set_l 0x34 (set_h 0x12 (startup [0x22; 0xff; 0xff]))) ->
       x <> uint16 (address_operand
                      (set_l 0x34 (set_h 0x12 (startup [0x22; 0xff; 0xff]))) + 1) ->
       memory st' x = memory (set_l 0x34 (set_h 0x12 (startup [0x22; 0xff; 0xff]))) x) /\
    (h st', l st', cond st', sp st') =
      (h (set_l 0x34 (set_h 0x12 (startup [0x22; 0xff; 0xff]))),
       l (set_l 0x34 (set_h 0x12 (startup [0x22; 0xff; 0xff]))),
       cond (set_l 0x34 (set_h 0x12 (startup [0x22; 0xff; 0xff]))),
       sp (set_l 0x34 (set_h 0x12 (startup [0x22; 0xff; 0xff])))) /\
    pc st' = uint16 (pc (set_l 0x34 (set_h 0x12 (startup [0x22; 0xff; 0xff]))) + 3).
Proof.
  apply (SHLD_stores_pair (set_l 0x34 (set_h 0x12 (startup [0x22; 0xff; 0xff])))).
  - apply wf_set_l; [unfold is_byte; lia|].
    apply wf_set_h; [unfold is_byte; lia|].
    apply wf_startup. repeat constructor; unfold is_byte; lia.
  - reflexivity.
Defined.

(** X23. LHLD reads back what SHLD wrote: L from the cell at the operand
    address, H from the next cell (address 0 after 0xFFFF); it changes no
    memory cell and no flag and ends 3 past the opcode. *)
Theorem LHLD_loads_pair (st : State) :
  wf st ->
  memory st (pc st) = 0x2a ->
  exists out st',
    Emulate st = (out, Return st') /\
    l st' = memory st (address_operand st) /\
    h st' = memory st (uint16 (address_operand st + 1)) /\
    memory st' = memory st /\
    cond st' = cond st /\
    pc st' = uint16 (pc st + 3).
Proof.
  intros Hwf Hop.
  pose proof (getAddr_address_operand st Hwf) as Hadr.
  unfold Emulate. rewrite Hop. run_switch. rewrite Hadr.
  eexists. eexists. split; [reflexivity|].
  cbn [memory h l cond pc set_h set_l set_pc].
  repeat split. apply uint16_add_add.
Qed.

Lemma LHLD_loads_pair_witness :
  exists out st',
    Emulate (startup [0x2a; 0x03; 0x00; 0x34; 0x12]) = (out, Return st') /\
    l st' = memory (startup [0x2a; 0x03; 0x00; 0x34; 0x12])
                   (address_operand (startup [0x2a; 0x03; 0x00; 0x34; 0x12])) /\
    h st' = memory (startup [0x2a; 0x03; 0x00; 0x34; 0x12])
                   (uint16 (address_operand (startup [0x2a; 0x03; 0x00; 0x34; 0x12]) + 1)) /\
    memory st' = memory (startup [0x2a; 0x03; 0x00; 0x34; 0x12]) /\
    cond st' = cond (startup [0x2a; 0x03; 0x00; 0x34; 0x12]) /\
    pc st' = uint16 (pc (startup [0x2a; 0x03; 0x00; 0x34; 0x12]) + 3).
Proof.
  apply (LHLD_loads_pair (startup [0x2a; 0x03; 0x00; 0x34; 0x12])).
  - apply wf_startup. repeat constructor; unfold is_byte; lia.
  - reflexivity.
Defined.

(** ** The stack *)

(** X24. PUSH PSW followed by POP PSW as the next instruction executed:
    both calls return, and the accumulator, all eight bits of the
    condition record and the stack pointer are as before the PUSH. *)
Theorem PUSH_PSW_then_POP_PSW_restores (st : State) :
  wf st ->
  memory st (pc st) = 0xf5 ->
  memory (state_of (snd (Emulate st))) (pc (state_of (snd (Emulate st)))) = 0xf1 ->
  exists out st2,
    run 2 st = (out, Return st2) /\
    a st2 = a st /\ cond st2 = cond st /\ sp st2 = sp st.
Proof.
  intros Hwf Hpush Hpop. exact (PUSH_POP_PSW_restores st Hwf Hpush Hpop).
Qed.

Lemma PUSH_PSW_then_POP_PSW_restores_witness :
  exists out st2,
    run 2 (upd_cond (set_z true) (set_a 0x42 (startup [0xf5; 0xf1])))
      = (out, Return st2) /\
    a st2 = a (upd_cond (set_z true) (set_a 0x42 (startup [0xf5; 0xf1]))) /\
    cond st2 = cond (upd_cond (set_z true) (set_a 0x42 (startup [0xf5; 0xf1]))) /\
    sp st2 = sp (upd_cond (set_z true) (set_a 0x42 (startup [0xf5; 0xf1]))).
Proof.
  apply (PUSH_PSW_then_POP_PSW_restores
           (upd_cond (set_z true) (set_a 0x42 (startup [0xf5; 0xf1])))).
  - apply wf_upd_cond.
    apply wf_set_a; [unfold is_byte; lia|].
    apply wf_startup. repeat constructor; unfold is_byte; lia.
  - reflexivity.
  - vm_compute. reflexivity.
Defined.

(** X25. [pop] followed by [push] of the two bytes popped puts the stack
    back: the stack pointer has its old value and every memory cell holds
    what it held, also when the stack wraps around the end of memory. *)
Theorem pop_then_push_restores (st : State) :
  is_word (sp st) ->
  sp (push (fst (fst (pop st))) (snd (fst (pop st))) (snd (pop st))) = sp st /\
  forall x,
    memory (push (fst (fst (pop st))) (snd (fst (pop st))) (snd (pop st))) x
      = memory st x.
Proof.
  intros Hsp. unfold pop, push. cbv zeta.
  cbn [fst snd sp memory store set_memory set_sp].
  assert (H2 : uint16 (uint16 (sp st + 2) - 2) = sp st).
  { unfold uint16. rewrite Zminus_mod_idemp_l.
    replace (sp st + 2 - 2) with (sp st) by lia. apply Z.mod_small, Hsp. }
  assert (H1 : uint16 (uint16 (sp st + 2) - 1) = uint16 (sp st + 1)).
  { unfold uint16. rewrite Zminus_mod_idemp_l. f_equal. lia. }
  rewrite H2, H1. split; [reflexivity|].
  intros x.
  destruct (Z.eqb_spec x (sp st)) as [->|_]; [reflexivity|].
  destruct (Z.eqb_spec x (uint16 (sp st + 1))) as [->|_]; reflexivity.
Qed.

Lemma pop_then_push_restores_witness :
  sp (push (fst (fst (pop (startup [0x11; 0x22]))))
           (snd (fst (pop (startup [0x11; 0x22]))))
           (snd (pop (startup [0x11; 0x22]))))
    = sp (startup [0x11; 0x22]) /\
  forall x,
    memory (push (fst (fst (pop (startup [0x11; 0x22]))))
                 (snd (fst (pop (startup [0x11; 0x22]))))
                 (snd (pop (startup [0x11; 0x22])))) x
      = memory (startup [0x11; 0x22]) x.
Proof.
  apply (pop_then_push_restores (startup [0x11; 0x22])).
  unfold is_word. cbn. lia.
Defined.

(** ** The first revision against the latest *)

Lemma same_state_fields (s0 : Rev0.State) (s1 : State) :
  same_state s0 s1 ->
  exists f0 f1,
    s0 = Rev0.mkState (a s1) (b s1) (c s1) (d s1) (e s1) (h s1) (l s1)
           (sp s1) (pc s1) (memory s1)
           (Rev0.mkConditions (z (cond s1)) (s (cond s1)) (p (cond s1))
              (cy (cond s1)) (ac (cond s1)) f0)
           (enable s1) /\
    f1 = cond s1.
Proof.
  destruct s0 as [? ? ? ? ? ? ? ? ? ? [? ? ? ? ? pad0] ?].
  unfold same_state. cbn.
  intros H. repeat match goal with H : _ /\ _ |- _ => destruct H end. subst.
  exists pad0, (cond s1). split; reflexivity.
Qed.

Lemma revisions_agree_switch (opc : Z) (s0 : Rev0.State) (s1 : State) :
  same_state s0 s1 ->
  listed opc Rev0.implemented = true ->
  fst (Rev0.Emulate_switch opc s0) = fst (Emulate_switch opc s1) /\
  same_result (snd (Rev0.Emulate_switch opc s0)) (snd (Emulate_switch opc s1)).
Proof.
  intros Hsame Hop.
  destruct (same_state_fields s0 s1 Hsame) as (f0 & _ & -> & _).
  destruct s1 as [? ? ? ? ? ? ? ? ? ? [? ? ? ? ? ? ? ?] ?].
  opcode_cases opc; try (vm_compute in Hop; discriminate Hop);
    (split; [reflexivity|]);
    cbv beta iota zeta delta
      [Rev0.Emulate_switch Emulate_switch Rev0.ret ret snd fst same_result];
    cbn [cond z cy set_pc Rev0.cond Rev0.z Rev0.cy Rev0.set_pc];
    split_ifs; repeat split.
Qed.

(** X26. The latest revision keeps what the first revision did: started
    in states that hold the same registers, memory and flags, on any
    opcode the first revision has a case for, the two revisions print the
    same lines, end the same way (return, or exit with the same status)
    and leave states that again hold the same registers, memory and
    flags. *)
Theorem revisions_agree (s0 : Rev0.State) (s1 : State) :
  same_state s0 s1 ->
  listed (Rev0.memory s0 (Rev0.pc s0)) Rev0.implemented = true ->
  fst (Rev0.Emulate s0) = fst (Emulate s1) /\
  same_result (snd (Rev0.Emulate s0)) (snd (Emulate s1)).
Proof.
  intros Hsame Hop.
  pose proof (revisions_agree_switch _ s0 s1 Hsame Hop) as [Hout Hres].
  assert (Hpc : Rev0.pc s0 = pc s1) by apply Hsame.
  assert (Hm : Rev0.memory s0 = memory s1) by apply Hsame.
  unfold Rev0.Emulate, Emulate. rewrite <- Hpc, <- Hm.
  destruct (Rev0.Emulate_switch (Rev0.memory s0 (Rev0.pc s0)) s0)
    as [o0 [t0|k0 t0]];
  destruct (Emulate_switch (Rev0.memory s0 (Rev0.pc s0)) s1)
    as [o1 [t1|k1 t1]];
  cbn [fst snd same_result] in *; try contradiction.
  - split; [rewrite Hout; reflexivity|].
    unfold same_state in *. cbn.
    repeat match goal with H : _ /\ _ |- _ => destruct H end.
    repeat split; try assumption. congruence.
  - split; [rewrite Hout; reflexivity | exact Hres].
Qed.

Lemma revisions_agree_witness :
  fst (Rev0.Emulate (Rev0.set_b 0x91 (Rev0.set_a 0xf0 (Rev0.startup [0x80])))) =
  fst (Emulate (set_b 0x91 (set_a 0xf0 (startup [0x80])))) /\
  same_result
    (snd (Rev0.Emulate (Rev0.set_b 0x91 (Rev0.set_a 0xf0 (Rev0.startup [0x80])))))
    (snd (Emulate (set_b 0x91 (set_a 0xf0 (startup [0x80]))))).
Proof.
  apply (revisions_agree
           (Rev0.set_b 0x91 (Rev0.set_a 0xf0 (Rev0.startup [0x80])))
           (set_b 0x91 (set_a 0xf0 (startup [0x80])))).
  - unfold same_state. cbn. repeat split.
  - reflexivity.
Defined.
